(** * Personal Trainer RAG backend: query parsing, filtering, reconciliation

    A shallow embedding of [src/backend/main.py] and the properties of its
    query-parsing / filtering / reconciliation pipeline, of the catalog
    cache and of the lookup and filter-option endpoints.

    Modelling conventions.
    - A Python [str] is a Rocq [string] (a sequence of 8-bit characters).
      [str.lower], [str.upper], [str.strip] and the regex class [\s] are
      modelled on the ASCII range; characters above 127 are left alone by
      the case maps and are never white space.  The library's own maps
      follow Unicode, so a statement about which strings match under a
      case map is made over the definitions of [Section CaseMaps], where
      [lower] and [upper] are parameters, and a statement that depends on
      the white-space class is made for ASCII text.
    - A JSON object read with [.get] is a record whose fields are options:
      [None] is an absent key.  Values are taken at the types the source
      declares for them ([ExercisePlan], [WorkoutRequest]).
    - [list(set(xs))] has no specified order in Python; its result is
      modelled as the finite set [gset string].
    - A Python [dict] is a [gmap]. *)

From Stdlib Require Import ZArith Ascii String List Bool Lia.
From stdpp Require Import base option list strings gmap sets fin_maps sorting.

Local Open Scope string_scope.
Local Open Scope list_scope.
Local Open Scope stdpp_scope.

(** ** Strings as Python uses them *)

Module PyStr.

(** [str.lower] on one character. *)
Definition lower_char (c : ascii) : ascii :=
  let n := nat_of_ascii c in
  if (65 <=? n)%nat && (n <=? 90)%nat then ascii_of_nat (n + 32) else c.

(** [str.upper] on one character. *)
Definition upper_char (c : ascii) : ascii :=
  let n := nat_of_ascii c in
  if (97 <=? n)%nat && (n <=? 122)%nat then ascii_of_nat (n - 32) else c.

Fixpoint map_chars (f : ascii -> ascii) (s : string) : string :=
  match s with
  | EmptyString => EmptyString
  | String c r => String (f c) (map_chars f r)
  end.

Definition lower : string -> string := map_chars lower_char.
Definition upper : string -> string := map_chars upper_char.

(** [s.startswith(p)]. *)
Fixpoint startswith (p s : string) : bool :=
  match p, s with
  | EmptyString, _ => true
  | String a p', String b s' => if Ascii.eqb a b then startswith p' s' else false
  | String _ _, EmptyString => false
  end.

(** [needle in hay] for two strings. *)
Fixpoint contains (needle hay : string) : bool :=
  startswith needle hay ||
  match hay with
  | EmptyString => false
  | String _ r => contains needle r
  end.

(** [x in xs] for a string and a list of strings. *)
Definition mem (x : string) (xs : list string) : bool :=
  existsb (String.eqb x) xs.

(** The characters for which [str.isspace] holds, which are also the
    ones the regex class [\s] matches: TAB, LF, VT, FF, CR, FS, GS, RS,
    US and the space. *)
Definition is_space (c : ascii) : bool :=
  let n := nat_of_ascii c in
  ((9 <=? n)%nat && (n <=? 13)%nat) || ((28 <=? n)%nat && (n <=? 32)%nat).

Fixpoint lstrip (s : string) : string :=
  match s with
  | EmptyString => EmptyString
  | String c r => if is_space c then lstrip r else s
  end.

(** Drops trailing white space: a character is kept when it is not a
    space or when something is kept after it. *)
Fixpoint rstrip (s : string) : string :=
  match s with
  | EmptyString => EmptyString
  | String c r =>
      match rstrip r with
      | EmptyString => if is_space c then EmptyString else String c EmptyString
      | r' => String c r'
      end
  end.

(** [s.strip()]. *)
Definition strip (s : string) : string := rstrip (lstrip s).

(** [sep.join(xs)]. *)
Fixpoint join (sep : string) (xs : list string) : string :=
  match xs with
  | [] => EmptyString
  | [x] => x
  | x :: r => x +:+ sep +:+ join sep r
  end.

(** Truthiness of a string: non-empty. *)
Definition truthy (s : string) : bool :=
  match s with EmptyString => false | _ => true end.

End PyStr.

(** ** Data model *)

(** One exercise of the catalog, as the ExerciseDB API returns it.  Every
    field is read with [.get], so every field may be absent. *)
Record ExerciseRecord := mkExercise {
  exerciseId : option string;
  name : option string;
  bodyParts : option (list string);
  equipments : option (list string);
  targetMuscles : option (list string);
  secondaryMuscles : option (list string);
  exerciseType : option string;
  imageUrl : option string;
  videoUrl : option string
}.

(** The dictionary [parse_user_query] returns. *)
Record QueryParams := mkParams {
  muscles : gset string;
  body_parts : gset string;
  difficulty : option string;
  equipment : gset string
}.

(** ** Constants *)

Definition EXERCISE_VIDEO_CDN : string := "https://exercisedb.b-cdn.net/exercises-videos".
Definition EXERCISE_IMAGE_CDN : string := "https://exercisedb.b-cdn.net/exercises-thumbnails".

Definition ALL_MUSCLES : list string :=
  [ "chest"; "shoulders"; "biceps"; "triceps"; "forearms";
    "lats"; "back"; "lower back"; "traps";
    "abdominals"; "abs"; "obliques"; "core";
    "quadriceps"; "quads"; "hamstrings"; "glutes"; "calves"; "adductors";
    "abductors"; "legs" ].

Definition MUSCLE_TO_BODYPART : gmap string string :=
  list_to_map
    [ ("chest", "Chest");
      ("shoulders", "Shoulders");
      ("biceps", "Upper Arms");
      ("triceps", "Upper Arms");
      ("forearms", "Lower Arms");
      ("lats", "Back");
      ("back", "Back");
      ("lower back", "Back");
      ("traps", "Back");
      ("abdominals", "Waist");
      ("abs", "Waist");
      ("obliques", "Waist");
      ("core", "Waist");
      ("quadriceps", "Upper Legs");
      ("quads", "Upper Legs");
      ("hamstrings", "Upper Legs");
      ("glutes", "Upper Legs");
      ("calves", "Lower Legs");
      ("adductors", "Upper Legs");
      ("abductors", "Upper Legs");
      ("legs", "Upper Legs") ].

Definition EQUIPMENT_TYPES : list string :=
  [ "dumbbell"; "barbell"; "body weight"; "cable"; "machine"; "kettlebell";
    "band"; "medicine ball"; "exercise ball" ].

(** ** [filter_exercises] *)

(** [ex.get(key, [])]. *)
Definition get_list (o : option (list string)) : list string := default [] o.

(** The condition of the body-part comprehension:
    [any(bp.upper() in [p.upper() for p in ex.get("bodyParts", [])] for bp in params["body_parts"])]. *)
Definition matches_body_part (bps : gset string) (ex : ExerciseRecord) : bool :=
  existsb
    (fun bp => PyStr.mem (PyStr.upper bp) (map PyStr.upper (get_list (bodyParts ex))))
    (elements bps).

(** The condition of the equipment comprehension:
    [any(eq.lower() in [e.lower() for e in ex.get("equipments", [])] for eq in params["equipment"])]. *)
Definition matches_equipment (eqs : gset string) (ex : ExerciseRecord) : bool :=
  existsb
    (fun eq => PyStr.mem (PyStr.lower eq) (map PyStr.lower (get_list (equipments ex))))
    (elements eqs).

(** Lines 286-294: the body-part step, skipped when [params["body_parts"]]
    is empty. *)
Definition body_part_step (params : QueryParams) (filtered : list ExerciseRecord)
  : list ExerciseRecord :=
  if bool_decide (body_parts params = ∅) then filtered
  else List.filter (matches_body_part (body_parts params)) filtered.

(** Lines 296-307: the equipment step.  The matching subset replaces the
    candidates only when it has at least 3 records. *)
Definition equipment_step (params : QueryParams) (filtered : list ExerciseRecord)
  : list ExerciseRecord :=
  if bool_decide (equipment params = ∅) then filtered
  else
    let equipment_filtered := List.filter (matches_equipment (equipment params)) filtered in
    if (3 <=? length equipment_filtered)%nat then equipment_filtered else filtered.

(** Lines 309-314: the sparse-result fallback and the final truncation. *)
Definition fallback_step (exercises filtered : list ExerciseRecord) : list ExerciseRecord :=
  let filtered := if (length filtered <? 3)%nat then take 30 exercises else filtered in
  take 30 filtered.

Definition filter_exercises (exercises : list ExerciseRecord) (params : QueryParams)
  : list ExerciseRecord :=
  let filtered := exercises in
  let filtered := body_part_step params filtered in
  let filtered := equipment_step params filtered in
  fallback_step exercises filtered.

(** ** [parse_user_query] *)

(** [xs.append(x)] guarded by [x not in xs]. *)
Definition append_if_absent (x : string) (xs : list string) : list string :=
  if negb (PyStr.mem x xs) then xs ++ [x] else xs.

(** Lines 221-238: the muscle list before deduplication. *)
Definition extract_muscles (query_lower : string) : list string :=
  let muscles := List.filter (fun muscle => PyStr.contains muscle query_lower) ALL_MUSCLES in
  let muscles :=
    if PyStr.contains "arms" query_lower
    then append_if_absent "triceps" (append_if_absent "biceps" muscles)
    else muscles in
  let muscles :=
    if PyStr.contains "upper body" query_lower
    then muscles ++ ["chest"; "shoulders"; "biceps"; "triceps"; "back"]
    else muscles in
  let muscles :=
    if PyStr.contains "lower body" query_lower
    then muscles ++ ["quadriceps"; "hamstrings"; "glutes"; "calves"]
    else muscles in
  let muscles :=
    if PyStr.contains "full body" query_lower || PyStr.contains "total body" query_lower
    then muscles ++ ["chest"; "quadriceps"; "back"; "shoulders"; "abs"]
    else muscles in
  muscles.

(** [MUSCLE_TO_BODYPART.get(m, "Chest")]. *)
Definition bodypart_of (m : string) : string :=
  default "Chest" (MUSCLE_TO_BODYPART !! m).

(** Line 244: [list(set([... for m in muscles])) if muscles else []]. *)
Definition map_body_parts (muscles : gset string) : gset string :=
  if bool_decide (muscles = ∅) then ∅
  else list_to_set (map bodypart_of (elements muscles)).

(** [any(word in query_lower for word in words)]. *)
Definition any_word_in (words : list string) (query_lower : string) : bool :=
  existsb (fun word => PyStr.contains word query_lower) words.

(** [not parsed_difficulty]: [None] and the empty string are falsy. *)
Definition falsy (o : option string) : bool :=
  match o with
  | None => true
  | Some s => negb (PyStr.truthy s)
  end.

(** Lines 246-254. *)
Definition resolve_difficulty (query_lower : string) (difficulty : option string)
  : option string :=
  let parsed_difficulty := difficulty in
  if falsy parsed_difficulty then
    if any_word_in ["beginner"; "easy"; "new"; "starting"] query_lower then Some "beginner"
    else if any_word_in ["intermediate"; "moderate"] query_lower then Some "intermediate"
    else if any_word_in ["advanced"; "expert"; "hard"; "intense"] query_lower then Some "expert"
    else parsed_difficulty
  else parsed_difficulty.

(** Lines 256-270: the equipment list before deduplication.
    [equipment or []] is the supplied list when it is non-empty. *)
Definition resolve_equipment (query_lower : string) (equipment : option (list string))
  : list string :=
  let parsed_equipment := match equipment with Some (e :: r) => e :: r | _ => [] end in
  match parsed_equipment with
  | _ :: _ => parsed_equipment
  | [] =>
      let parsed_equipment :=
        List.filter (fun eq => PyStr.contains eq query_lower) EQUIPMENT_TYPES in
      let parsed_equipment :=
        if PyStr.contains "bodyweight" query_lower
           || PyStr.contains "no equipment" query_lower
           || PyStr.contains "home" query_lower
        then parsed_equipment ++ ["body weight"] else parsed_equipment in
      let parsed_equipment :=
        if PyStr.contains "dumbbells" query_lower
           && negb (PyStr.mem "dumbbell" parsed_equipment)
        then parsed_equipment ++ ["dumbbell"] else parsed_equipment in
      let parsed_equipment :=
        if PyStr.contains "resistance band" query_lower
           && negb (PyStr.mem "band" parsed_equipment)
        then parsed_equipment ++ ["band"] else parsed_equipment in
      parsed_equipment
  end.

Definition parse_user_query (query : string) (difficulty : option string)
    (equipment : option (list string)) : QueryParams :=
  let query_lower := PyStr.lower query in
  let muscles : gset string := list_to_set (extract_muscles query_lower) in
  {| muscles := muscles;
     body_parts := map_body_parts muscles;
     difficulty := resolve_difficulty query_lower difficulty;
     equipment := list_to_set (resolve_equipment query_lower equipment) |}.

(** ** The same code over the library's case maps

    [str.lower] and [str.upper] belong to Python's library and follow
    Unicode: they also change characters outside ASCII.  [PyStr.lower] and
    [PyStr.upper] agree with them on ASCII text and are what the
    definitions above are evaluated with.  Below, the same lines of the
    source are written once more with the two case maps as parameters, so
    that a statement about which strings match holds for the library's
    maps too. *)
Section CaseMaps.

Variables lower upper : string -> string.

(** The condition of the body-part comprehension, lines 290-293. *)
Definition matches_body_part_with (bps : gset string) (ex : ExerciseRecord) : bool :=
  existsb
    (fun bp => PyStr.mem (upper bp) (map upper (get_list (bodyParts ex))))
    (elements bps).

(** The condition of the equipment comprehension, lines 300-303. *)
Definition matches_equipment_with (eqs : gset string) (ex : ExerciseRecord) : bool :=
  existsb
    (fun eq => PyStr.mem (lower eq) (map lower (get_list (equipments ex))))
    (elements eqs).

(** Lines 286-294. *)
Definition body_part_step_with (params : QueryParams) (filtered : list ExerciseRecord)
  : list ExerciseRecord :=
  if bool_decide (body_parts params = ∅) then filtered
  else List.filter (matches_body_part_with (body_parts params)) filtered.

(** Lines 296-307. *)
Definition equipment_step_with (params : QueryParams) (filtered : list ExerciseRecord)
  : list ExerciseRecord :=
  if bool_decide (equipment params = ∅) then filtered
  else
    let equipment_filtered :=
      List.filter (matches_equipment_with (equipment params)) filtered in
    if (3 <=? length equipment_filtered)%nat then equipment_filtered else filtered.

(** [filter_exercises], lines 282-314. *)
Definition filter_exercises_with (exercises : list ExerciseRecord) (params : QueryParams)
  : list ExerciseRecord :=
  let filtered := exercises in
  let filtered := body_part_step_with params filtered in
  let filtered := equipment_step_with params filtered in
  fallback_step exercises filtered.

(** [parse_user_query], lines 217-279. *)
Definition parse_user_query_with (query : string) (difficulty : option string)
    (equipment : option (list string)) : QueryParams :=
  let query_lower := lower query in
  let muscles : gset string := list_to_set (extract_muscles query_lower) in
  {| muscles := muscles;
     body_parts := map_body_parts muscles;
     difficulty := resolve_difficulty query_lower difficulty;
     equipment := list_to_set (resolve_equipment query_lower equipment) |}.

End CaseMaps.

(** ** [fetch_exercises]: media URLs *)

(** Lines 196-200 and 201-205, for one of the two URL fields: the field is
    rewritten when it is present, non-empty and does not start with
    ["http"]. *)
Definition enrich_url (cdn : string) (url : option string) : option string :=
  match url with
  | Some u =>
      if PyStr.truthy u then
        if negb (PyStr.startswith "http" u) then Some (cdn +:+ "/" +:+ u) else Some u
      else Some u
  | None => None
  end.

(** The body of the loop of lines 195-205. *)
Definition enrich (ex : ExerciseRecord) : ExerciseRecord :=
  {| exerciseId := exerciseId ex;
     name := name ex;
     bodyParts := bodyParts ex;
     equipments := equipments ex;
     targetMuscles := targetMuscles ex;
     secondaryMuscles := secondaryMuscles ex;
     exerciseType := exerciseType ex;
     imageUrl := enrich_url EXERCISE_IMAGE_CDN (imageUrl ex);
     videoUrl := enrich_url EXERCISE_VIDEO_CDN (videoUrl ex) |}.

(** The three shapes lines 187-192 tell apart. *)
Inductive ApiResponse :=
| RespObject (data : option (list ExerciseRecord))
| RespArray (items : list ExerciseRecord)
| RespOther.

Definition response_records (data : ApiResponse) : list ExerciseRecord :=
  match data with
  | RespObject (Some d) => d
  | RespObject None => []
  | RespArray l => l
  | RespOther => []
  end.

(** [fetch_exercises] over the cache it keeps: the result and the new
    cache.  The response is only looked at when the cache is unset. *)
Definition fetch_exercises (exercises_cache : option (list ExerciseRecord))
    (data : ApiResponse) : list ExerciseRecord * option (list ExerciseRecord) :=
  match exercises_cache with
  | Some cached => (cached, Some cached)
  | None =>
      let fetched := map enrich (response_records data) in
      (fetched, Some fetched)
  end.

(** A URL that begins with a scheme, in the sense of RFC 3986: a letter,
    then letters, digits, [+], [-] or [.], then a colon.  This is the
    notion of "absolute" the specification uses; the source does not
    compute it. *)
Module Scheme.

Definition is_alpha (c : ascii) : bool :=
  let n := nat_of_ascii c in
  ((65 <=? n)%nat && (n <=? 90)%nat) || ((97 <=? n)%nat && (n <=? 122)%nat).

Definition is_scheme_char (c : ascii) : bool :=
  let n := nat_of_ascii c in
  is_alpha c || ((48 <=? n)%nat && (n <=? 57)%nat)
  || (n =? 43)%nat || (n =? 45)%nat || (n =? 46)%nat.

Fixpoint scheme_tail (s : string) : bool :=
  match s with
  | EmptyString => false
  | String c r =>
      if (nat_of_ascii c =? 58)%nat then true
      else if is_scheme_char c then scheme_tail r else false
  end.

Definition begins_with_scheme (s : string) : bool :=
  match s with
  | EmptyString => false
  | String c r => is_alpha c && scheme_tail r
  end.

End Scheme.

(** ** [generate_workout_plan]: reading the model's answer *)

(** The search [re.search(r'```(?:json)?\s*([\s\S]*?)```', content)],
    written as the backtracking matcher runs it. *)
Module Fence.

Definition fence : string := "```".

(** The rest of [s] after the prefix [p], when [s] starts with [p]. *)
Fixpoint drop_prefix (p s : string) : option string :=
  match p, s with
  | EmptyString, _ => Some s
  | String a p', String b s' => if Ascii.eqb a b then drop_prefix p' s' else None
  | String _ _, EmptyString => None
  end.

(** The lazy group followed by the closing fence, [([\s\S]*?)```]: the
    shortest prefix of [s] after which a fence starts. *)
Fixpoint lazy_group (s : string) : option string :=
  if PyStr.startswith fence s then Some EmptyString
  else
    match s with
    | EmptyString => None
    | String c r => String c <$> lazy_group r
    end.

(** [\s*] followed by the rest of the pattern: greedy, so the longest
    run of white space is tried first and shorter ones on failure. *)
Fixpoint spaces_then_group (s : string) : option string :=
  match s with
  | String c r =>
      if PyStr.is_space c then
        match spaces_then_group r with
        | Some g => Some g
        | None => lazy_group s
        end
      else lazy_group s
  | EmptyString => lazy_group s
  end.

(** [(?:json)?] followed by the rest of the pattern: the tag is taken
    when it is there, and given back on failure. *)
Definition tag_then_rest (s : string) : option string :=
  match drop_prefix "json" s with
  | Some r =>
      match spaces_then_group r with
      | Some g => Some g
      | None => spaces_then_group s
      end
  | None => spaces_then_group s
  end.

(** The whole pattern, anchored at the start of [s]. *)
Definition match_here (s : string) : option string :=
  match drop_prefix fence s with
  | Some r => tag_then_rest r
  | None => None
  end.

(** [re.search]: the match at the leftmost position that has one;
    the result is group 1. *)
Fixpoint search (s : string) : option string :=
  match match_here s with
  | Some g => Some g
  | None =>
      match s with
      | EmptyString => None
      | String _ r => search r
      end
  end.

End Fence.

(** Lines 364-371: the text handed to [json.loads]. *)
Definition extract_json (content : string) : string :=
  let json_str := content in
  if PyStr.contains Fence.fence content then
    match Fence.search content with
    | Some group1 => PyStr.strip group1
    | None => json_str
    end
  else json_str.

(** The line feed. *)
Definition LF : string := String (ascii_of_nat 10) EmptyString.

(** The answer wrapped in a fenced block with the "json" tag, and in one
    without a tag. *)
Definition fenced_json (t : string) : string :=
  "```json" +:+ LF +:+ t +:+ LF +:+ "```".

Definition fenced_plain (t : string) : string :=
  "```" +:+ LF +:+ t +:+ LF +:+ "```".

Section PlanResponse.

(** The structured object and [json.loads], which belongs to Python's
    library: [None] stands for [json.JSONDecodeError]. *)
Variable Json : Type.
Variable json_loads : string -> option Json.

(** Lines 373-377: [None] is the [HTTPException] with status 500. *)
Definition parse_response (content : string) : option Json :=
  json_loads (extract_json content).

End PlanResponse.

(** ** [generate_workout]: reconciliation *)

(** One item of the plan's ["exercises"] list, at the types of the
    [ExercisePlan] model; [None] is an absent key. *)
Module PlanItem.
Record t := mk {
  id : option string;
  sets : option Z;
  reps : option string;
  rest_seconds : option Z;
  trainer_notes : option string
}.
End PlanItem.

(** The plan the model returns, at the types of the [WorkoutPlan] model. *)
Record WorkoutPlan := mkPlan {
  summary : option string;
  workout_focus : option string;
  estimated_time : option string;
  plan_difficulty : option string;
  exercises : option (list PlanItem.t);
  warmup_recommendation : option string;
  cooldown_recommendation : option string
}.

(** An entry of [full_exercises]: the copy of the catalog record ([base])
    and the keys lines 445-460 set on it. *)
Module Reconciled.
Record t := mk {
  base : ExerciseRecord;
  sets : Z;
  reps : string;
  restSeconds : Z;
  trainerNotes : string;
  id : option string;
  primaryMuscles : list string;
  equipment : string;
  level : string;
  youtubeSearchUrl : string
}.
End Reconciled.

(** [urllib.parse.quote] with its default safe set: letters, digits,
    [_ . - ~] and [/] are kept, every other byte becomes [%XX]. *)
Module Quote.

Definition hex_digit (n : nat) : ascii :=
  if (n <? 10)%nat then ascii_of_nat (48 + n) else ascii_of_nat (55 + n).

Definition is_safe (c : ascii) : bool :=
  let n := nat_of_ascii c in
  ((65 <=? n)%nat && (n <=? 90)%nat) || ((97 <=? n)%nat && (n <=? 122)%nat)
  || ((48 <=? n)%nat && (n <=? 57)%nat)
  || (n =? 95)%nat || (n =? 46)%nat || (n =? 45)%nat || (n =? 126)%nat
  || (n =? 47)%nat.

Fixpoint quote (s : string) : string :=
  match s with
  | EmptyString => EmptyString
  | String c r =>
      if is_safe c then String c (quote r)
      else
        let n := nat_of_ascii c in
        String "%" (String (hex_digit (n / 16)) (String (hex_digit (n mod 16)) (quote r)))
  end.

End Quote.

(** Line 438: [{ex.get("exerciseId"): ex for ex in all_exercises}]; a later
    record with the same id replaces an earlier one. *)
Definition index_records (m : gmap (option string) ExerciseRecord)
    (all_exercises : list ExerciseRecord) : gmap (option string) ExerciseRecord :=
  foldl (fun m ex => <[exerciseId ex := ex]> m) m all_exercises.

Definition exercise_map (all_exercises : list ExerciseRecord)
  : gmap (option string) ExerciseRecord :=
  index_records ∅ all_exercises.

(** Lines 444-460: the entry built from a catalog record and a plan item. *)
Definition merge_entry (rec : ExerciseRecord) (plan_ex : PlanItem.t) : Reconciled.t :=
  let exercise_name := default "exercise" (name rec) in
  let youtube_query := Quote.quote (exercise_name +:+ " exercise tutorial") in
  {| Reconciled.base := rec;
     Reconciled.sets := default 3%Z (PlanItem.sets plan_ex);
     Reconciled.reps := default "10-12" (PlanItem.reps plan_ex);
     Reconciled.restSeconds := default 60%Z (PlanItem.rest_seconds plan_ex);
     Reconciled.trainerNotes := default EmptyString (PlanItem.trainer_notes plan_ex);
     Reconciled.id := exerciseId rec;
     Reconciled.primaryMuscles := get_list (targetMuscles rec);
     Reconciled.equipment := PyStr.join ", " (get_list (equipments rec));
     Reconciled.level := "intermediate";
     Reconciled.youtubeSearchUrl :=
       "https://www.youtube.com/results?search_query=" +:+ youtube_query |}.

(** Lines 442-462, one turn of the loop: what is appended, if anything.
    The test is [ex_id and ex_id in exercise_map]. *)
Definition reconcile_item (emap : gmap (option string) ExerciseRecord)
    (plan_ex : PlanItem.t) : option Reconciled.t :=
  match PlanItem.id plan_ex with
  | Some ex_id =>
      if PyStr.truthy ex_id then
        match emap !! Some ex_id with
        | Some rec => Some (merge_entry rec plan_ex)
        | None => None
        end
      else None
  | None => None
  end.

(** The loop of lines 440-462 over the accumulator [full_exercises]. *)
Fixpoint reconcile_loop (emap : gmap (option string) ExerciseRecord)
    (items : list PlanItem.t) (full_exercises : list Reconciled.t) : list Reconciled.t :=
  match items with
  | [] => full_exercises
  | plan_ex :: rest =>
      match reconcile_item emap plan_ex with
      | Some full_ex => reconcile_loop emap rest (full_exercises ++ [full_ex])
      | None => reconcile_loop emap rest full_exercises
      end
  end.

(** Lines 437-462: the ["exercises"] value of the response. *)
Definition reconcile (plan : WorkoutPlan) (all_exercises : list ExerciseRecord)
  : list Reconciled.t :=
  reconcile_loop (exercise_map all_exercises) (default [] (exercises plan)) [].

(** ** Vocabulary of the statements, and sample data *)

(** [w] occurs in [s]. *)
Definition Substring (w s : string) : Prop := ∃ a b, s = a +:+ w +:+ b.

(** A record has one of the requested equipments, up to the case map
    [lower]. *)
Definition EquipmentMatchWith (lower : string -> string) (eqs : gset string)
    (ex : ExerciseRecord) : Prop :=
  ∃ eq e, eq ∈ eqs ∧ e ∈ get_list (equipments ex) ∧ lower eq = lower e.

(** A small catalog used to run the filter. *)
Definition sample_record (i : string) (bp eqp : list string) : ExerciseRecord :=
  {| exerciseId := Some i; name := Some ("exercise " +:+ i);
     bodyParts := Some bp; equipments := Some eqp;
     targetMuscles := None; secondaryMuscles := None; exerciseType := None;
     imageUrl := None; videoUrl := None |}.

Definition sample_catalog : list ExerciseRecord :=
  [ sample_record "0001" ["Chest"] ["Barbell"];
    sample_record "0002" ["Back"] ["Cable"];
    sample_record "0003" ["Upper Legs"] ["Body weight"];
    sample_record "0004" ["CHEST"; "Shoulders"] ["Dumbbell"] ].

Definition sample_params : QueryParams :=
  {| muscles := {["chest"]}; body_parts := {["Chest"]};
     difficulty := None; equipment := {["dumbbell"]} |}.

(** A plan that picks two catalog records and one id the catalog lacks. *)
Definition sample_plan : WorkoutPlan :=
  {| summary := Some "Push day"; workout_focus := Some "Upper Body Push";
     estimated_time := Some "45 minutes"; plan_difficulty := Some "beginner";
     exercises :=
       Some [ PlanItem.mk (Some "0004") (Some 4%Z) (Some "8-10") (Some 90%Z) (Some "Slow");
              PlanItem.mk (Some "9999") (Some 3%Z) None None None;
              PlanItem.mk (Some "0001") None None None None ];
     warmup_recommendation := None; cooldown_recommendation := None |}.

(** One of [words] occurs in [s]. *)
Definition AnyWordIn (words : list string) (s : string) : Prop :=
  ∃ w, w ∈ words ∧ Substring w s.

Definition BEGINNER_WORDS : list string := ["beginner"; "easy"; "new"; "starting"].
Definition INTERMEDIATE_WORDS : list string := ["intermediate"; "moderate"].
Definition EXPERT_WORDS : list string := ["advanced"; "expert"; "hard"; "intense"].

(** A reader for the three JSON literals, to run [parse_response] on. *)
Inductive JsonLit := JNull | JTrue | JFalse.

Definition loads_literal (s : string) : option JsonLit :=
  let s := PyStr.strip s in
  if String.eqb s "null" then Some JNull
  else if String.eqb s "true" then Some JTrue
  else if String.eqb s "false" then Some JFalse
  else None.

(** ** The remaining endpoints and helpers *)

(** [get_exercise], lines 403-407, over the fetched catalog: the first
    record whose id is [exercise_id]; [None] is the [HTTPException] with
    status 404. *)
Fixpoint get_exercise (exercises : list ExerciseRecord) (exercise_id : string)
  : option ExerciseRecord :=
  match exercises with
  | [] => None
  | ex :: rest =>
      if bool_decide (exerciseId ex = Some exercise_id) then Some ex
      else get_exercise rest exercise_id
  end.

(** The body of [POST /api/workout], at the types of [WorkoutRequest]. *)
Module Request.
Record t := mk {
  query : string;
  difficulty : option string;
  equipment : option (list string)
}.
End Request.

(** [if request.equipment]: a list is truthy when it is non-empty. *)
Definition truthy_list (o : option (list string)) : bool :=
  match o with
  | Some (_ :: _) => true
  | _ => false
  end.

(** Lines 418-422. *)
Definition enhanced_query (request : Request.t) : string :=
  let enhanced_query := Request.query request in
  let enhanced_query :=
    if negb (falsy (Request.difficulty request))
    then enhanced_query +:+ " " +:+ default EmptyString (Request.difficulty request)
    else enhanced_query in
  let enhanced_query :=
    if truthy_list (Request.equipment request)
    then enhanced_query +:+ " with "
         +:+ PyStr.join ", " (default [] (Request.equipment request))
    else enhanced_query in
  enhanced_query.

(** Line 425: the parameters of a request. *)
Definition request_params (request : Request.t) : QueryParams :=
  parse_user_query (enhanced_query request)
    (Request.difficulty request) (Request.equipment request).

(** [sorted(list(s))] for a set of strings: strings are compared
    character by character, by code. *)
Definition sorted (s : gset string) : list string := merge_sort String.le (elements s).

(** [for x in xs: s.add(x)]. *)
Definition add_all (s : gset string) (xs : list string) : gset string :=
  foldl (fun s x => {[x]} ∪ s) s xs.

(** The response of [GET /api/filters]. *)
Module Filters.
Record t := mk {
  equipment : list string;
  bodyParts : list string;
  muscles : list string
}.
End Filters.

(** One turn of the loop of lines 485-493 over the three sets. *)
Definition filters_step (acc : gset string * gset string * gset string)
    (ex : ExerciseRecord) : gset string * gset string * gset string :=
  let '(equipment, body_parts, muscles) := acc in
  let equipment := add_all equipment (get_list (equipments ex)) in
  let body_parts := add_all body_parts (get_list (bodyParts ex)) in
  let muscles := add_all muscles (get_list (targetMuscles ex)) in
  let muscles := add_all muscles (get_list (secondaryMuscles ex)) in
  (equipment, body_parts, muscles).

(** [get_filters], lines 480-499, over the fetched catalog. *)
Definition get_filters (exercises : list ExerciseRecord) : Filters.t :=
  let '(equipment, body_parts, muscles) := foldl filters_step (∅, ∅, ∅) exercises in
  {| Filters.equipment := sorted equipment;
     Filters.bodyParts := sorted body_parts;
     Filters.muscles := sorted muscles |}.

(** ** More vocabulary of the statements *)

(** A record has one of the requested body parts, up to the case map
    [upper]. *)
Definition BodyPartMatchWith (upper : string -> string) (bps : gset string)
    (ex : ExerciseRecord) : Prop :=
  ∃ bp p, bp ∈ bps ∧ p ∈ get_list (bodyParts ex) ∧ upper bp = upper p.


(** Two fences that do not overlap occur in [s]. *)
Definition TwoFences (s : string) : Prop :=
  ∃ a b c, s = a +:+ Fence.fence +:+ b +:+ Fence.fence +:+ c.


(** The test of line 443 on a plan id, against the catalog's ids. *)
Definition id_survives (all_exercises : list ExerciseRecord) (plan_id : option string) : bool :=
  match plan_id with
  | Some ex_id => PyStr.truthy ex_id && bool_decide (Some ex_id ∈ map exerciseId all_exercises)
  | None => false
  end.

(** A media URL is absent, empty, or starts with ["http"]. *)
Definition url_settled (url : option string) : Prop :=
  match url with
  | Some u => u = EmptyString ∨ PyStr.startswith "http" u = true
  | None => True
  end.

(** ** More sample data *)

Definition push_catalog : list ExerciseRecord :=
  [ sample_record "0101" ["Chest"] ["Dumbbell"];
    sample_record "0102" ["chest"] ["DUMBBELL"];
    sample_record "0103" ["CHEST"; "Shoulders"] ["dumbbell"; "Barbell"];
    sample_record "0104" ["Back"] ["Cable"];
    sample_record "0105" ["Chest"] ["Barbell"] ].

Definition no_params : QueryParams :=
  {| muscles := ∅; body_parts := ∅; difficulty := None; equipment := ∅ |}.

(** * Properties *)

(** ** Strings *)

Lemma append_cons c s r : String c s +:+ r = String c (s +:+ r).
Proof. reflexivity. Qed.

Lemma append_empty r : EmptyString +:+ r = r.
Proof. reflexivity. Qed.

Lemma startswith_spec p s : PyStr.startswith p s = true ↔ ∃ b, s = p +:+ b.
Proof.
  revert s. induction p as [|a p IH]; intros s; simpl.
  - split; [intros _; by exists s | done].
  - destruct s as [|b s].
    + split; [done | intros [r Hr]; discriminate].
    + setoid_rewrite append_cons.
      destruct (Ascii.eqb_spec a b) as [->|Hne].
      * rewrite IH. split; intros [r Hr]; exists r; congruence.
      * split; [done | intros [r Hr]; congruence].
Qed.

Lemma contains_spec w s : PyStr.contains w s = true ↔ Substring w s.
Proof.
  induction s as [|c s IH]; simpl.
  - rewrite orb_false_r, startswith_spec. split.
    + intros [b Hb]. by exists EmptyString, b.
    + intros [a [b Hab]]. destruct a; [by exists b | discriminate].
  - rewrite orb_true_iff, IH, startswith_spec. split.
    + intros [[b Hb] | [a [b Hab]]].
      * by exists EmptyString, b.
      * exists (String c a), b. rewrite append_cons. by rewrite Hab.
    + intros [a [b Hab]]. destruct a as [|c' a].
      * left. by exists b.
      * right. exists a, b. rewrite append_cons in Hab. congruence.
Qed.

Lemma mem_spec x xs : PyStr.mem x xs = true ↔ x ∈ xs.
Proof.
  unfold PyStr.mem. rewrite existsb_exists, list_elem_of_In. split.
  - intros [y [Hin Heq]]. apply String.eqb_eq in Heq. by subst.
  - intros Hin. exists x. split; [done | apply String.eqb_refl].
Qed.

(** ** The filter *)

Lemma matches_equipment_with_spec lower eqs ex :
  matches_equipment_with lower eqs ex = true ↔ EquipmentMatchWith lower eqs ex.
Proof.
  unfold matches_equipment_with, EquipmentMatchWith. rewrite existsb_exists. split.
  - intros [eq [Hin Hm]]. apply mem_spec in Hm.
    apply list_elem_of_fmap in Hm as [e [He Hine]].
    exists eq, e. split_and!; [|done..].
    apply elem_of_elements. by apply list_elem_of_In.
  - intros [eq [e (Heq & He & Hl)]]. exists eq. split.
    + apply list_elem_of_In. by apply elem_of_elements.
    + apply mem_spec. rewrite Hl. by apply list_elem_of_fmap_2.
Qed.

Lemma filter_none {A} (f : A → bool) (l : list A) :
  (∀ x, x ∈ l → f x = false) → List.filter f l = [].
Proof.
  induction l as [|x l IH]; intros H; simpl; [done|].
  rewrite (H x) by left. apply IH. intros y Hy. apply H. by right.
Qed.

Lemma body_part_step_length p l : (length (body_part_step p l) ≤ length l)%nat.
Proof.
  unfold body_part_step. case_bool_decide; [done | apply List.filter_length_le].
Qed.

Lemma equipment_step_length p l : (length (equipment_step p l) ≤ length l)%nat.
Proof.
  unfold equipment_step. case_bool_decide; [done|]. cbv zeta.
  destruct (Nat.leb 3 _); [apply List.filter_length_le | done].
Qed.

(** C1: when fewer than 3 candidates are left after the body-part and the
    equipment steps, the filter returns the first 30 records of the
    catalog it was given, in the catalog's order. *)
Theorem filter_exercises_sparse_fallback (exercises : list ExerciseRecord) (params : QueryParams) :
  (length (equipment_step params (body_part_step params exercises)) < 3)%nat →
  filter_exercises exercises params = take 30 exercises.
Proof.
  intros Hlt. unfold filter_exercises, fallback_step.
  apply Nat.ltb_lt in Hlt. rewrite Hlt.
  by rewrite take_take, Nat.min_id.
Qed.

(** With the ASCII case maps the parametric definitions are the ones the
    filter is evaluated with. *)
Lemma filter_exercises_with_ascii :
  matches_equipment_with PyStr.lower = matches_equipment
  ∧ equipment_step_with PyStr.lower = equipment_step
  ∧ matches_body_part_with PyStr.upper = matches_body_part
  ∧ body_part_step_with PyStr.upper = body_part_step
  ∧ filter_exercises_with PyStr.lower PyStr.upper = filter_exercises.
Proof. by split_and!. Qed.

(** C2: whatever the case map [lower] is, with a non-empty equipment list
    the equipment step returns the matching subset when that subset has at
    least 3 records and returns its input unchanged otherwise; in
    particular an equipment list that no record matches removes nothing.
    The matching subset holds the candidates that have an equipment equal,
    after [lower], to a requested one. *)
Theorem equipment_step_threshold (lower : string → string) (params : QueryParams)
    (filtered : list ExerciseRecord) :
  equipment params ≠ ∅ →
  let equipment_filtered :=
    List.filter (matches_equipment_with lower (equipment params)) filtered in
  (∀ ex, ex ∈ equipment_filtered ↔
         ex ∈ filtered ∧ EquipmentMatchWith lower (equipment params) ex)
  ∧ ((3 ≤ length equipment_filtered)%nat →
     equipment_step_with lower params filtered = equipment_filtered)
  ∧ ((length equipment_filtered < 3)%nat →
     equipment_step_with lower params filtered = filtered)
  ∧ ((∀ ex, ex ∈ filtered → ¬ EquipmentMatchWith lower (equipment params) ex) →
     equipment_step_with lower params filtered = filtered).
Proof.
  intros Hne sub.
  assert (Hstep : equipment_step_with lower params filtered
                  = if (3 <=? length sub)%nat then sub else filtered).
  { unfold equipment_step_with. by rewrite bool_decide_eq_false_2. }
  split_and!.
  - intros ex. subst sub. rewrite !list_elem_of_In, List.filter_In.
    by rewrite matches_equipment_with_spec.
  - intros H. rewrite Hstep. by apply Nat.leb_le in H as ->.
  - intros H. rewrite Hstep. by apply Nat.leb_gt in H as ->.
  - intros H. rewrite Hstep.
    replace sub with (@nil ExerciseRecord); [done|].
    symmetry. apply filter_none. intros ex Hex.
    apply not_true_is_false. rewrite matches_equipment_with_spec. by apply H.
Qed.

(** C8: the filter returns the empty list exactly when the catalog is
    empty. *)
Theorem filter_exercises_empty_iff (exercises : list ExerciseRecord) (params : QueryParams) :
  filter_exercises exercises params = [] ↔ exercises = [].
Proof.
  unfold filter_exercises, fallback_step.
  pose proof (body_part_step_length params exercises) as Hb.
  pose proof (equipment_step_length params (body_part_step params exercises)) as He.
  destruct (Nat.ltb _ 3) eqn:Hlt.
  - rewrite take_take, Nat.min_id. by destruct exercises.
  - apply Nat.ltb_ge in Hlt.
    destruct (equipment_step params (body_part_step params exercises)) as [|x l] eqn:Hf;
      simpl in *; [lia|].
    split; [done|]. intros ->. simpl in *. lia.
Qed.

Lemma filter_exercises_sparse_fallback_witness :
  (length (equipment_step sample_params (body_part_step sample_params sample_catalog)) < 3)%nat
  ∧ filter_exercises sample_catalog sample_params = sample_catalog.
Proof.
  split.
  - vm_compute. lia.
  - apply (filter_exercises_sparse_fallback sample_catalog sample_params).
    vm_compute. lia.
Defined.

Lemma equipment_step_threshold_witness :
  equipment sample_params ≠ ∅
  ∧ equipment_step sample_params (body_part_step sample_params sample_catalog)
    = body_part_step sample_params sample_catalog.
Proof.
  assert (H : equipment sample_params ≠ ∅) by (vm_compute; discriminate).
  split; [exact H|].
  destruct (equipment_step_threshold PyStr.lower sample_params
              (body_part_step sample_params sample_catalog) H) as (_ & _ & Hkeep & _).
  apply Hkeep. vm_compute. lia.
Defined.

(** The two records the first two steps leave are too few: the whole
    catalog comes back, in its order. *)
Example filter_exercises_sample :
  map exerciseId (filter_exercises sample_catalog sample_params)
  = [Some "0001"; Some "0002"; Some "0003"; Some "0004"].
Proof. vm_compute. reflexivity. Qed.

(** ** The query parser *)

Lemma any_word_in_spec words s : any_word_in words s = true ↔ AnyWordIn words s.
Proof.
  unfold any_word_in, AnyWordIn. rewrite existsb_exists.
  split; intros [w [Hin Hw]]; exists w.
  - by rewrite <- contains_spec, list_elem_of_In.
  - by rewrite contains_spec, <- list_elem_of_In.
Qed.

Lemma any_word_in_false words s : any_word_in words s = false ↔ ¬ AnyWordIn words s.
Proof. by rewrite <- any_word_in_spec, not_true_iff_false. Qed.

Lemma resolve_difficulty_explicit ql s :
  s ≠ EmptyString → resolve_difficulty ql (Some s) = Some s.
Proof. intros Hs. unfold resolve_difficulty. by destruct s. Qed.

Lemma resolve_difficulty_scan ql d :
  d = None ∨ d = Some EmptyString →
  resolve_difficulty ql d =
    if any_word_in BEGINNER_WORDS ql then Some "beginner"
    else if any_word_in INTERMEDIATE_WORDS ql then Some "intermediate"
    else if any_word_in EXPERT_WORDS ql then Some "expert"
    else d.
Proof. by intros [-> | ->]. Qed.

(** C5, as the code has it: a non-empty explicit difficulty is returned
    verbatim; with no explicit difficulty, or with the empty string, the
    lowered query is scanned for the three keyword groups in order, the
    first group with a match decides, and without a match the difficulty
    stays as it was supplied. *)
Theorem parse_user_query_difficulty (query : string) (d : option string)
    (eqp : option (list string)) :
  let ql := PyStr.lower query in
  let r := difficulty (parse_user_query query d eqp) in
  (∀ s, d = Some s → s ≠ EmptyString → r = Some s)
  ∧ (d = None ∨ d = Some EmptyString →
     (AnyWordIn BEGINNER_WORDS ql → r = Some "beginner")
     ∧ (¬ AnyWordIn BEGINNER_WORDS ql → AnyWordIn INTERMEDIATE_WORDS ql →
        r = Some "intermediate")
     ∧ (¬ AnyWordIn BEGINNER_WORDS ql → ¬ AnyWordIn INTERMEDIATE_WORDS ql →
        AnyWordIn EXPERT_WORDS ql → r = Some "expert")
     ∧ (¬ AnyWordIn BEGINNER_WORDS ql → ¬ AnyWordIn INTERMEDIATE_WORDS ql →
        ¬ AnyWordIn EXPERT_WORDS ql → r = d)).
Proof.
  intros ql r. subst r. simpl. fold ql. split.
  - intros s -> Hs. by apply resolve_difficulty_explicit.
  - intros Hd. rewrite (resolve_difficulty_scan ql d Hd).
    split_and!.
    + intros H1. by apply any_word_in_spec in H1 as ->.
    + intros H1 H2. apply any_word_in_false in H1 as ->.
      by apply any_word_in_spec in H2 as ->.
    + intros H1 H2 H3. apply any_word_in_false in H1 as ->.
      apply any_word_in_false in H2 as ->.
      by apply any_word_in_spec in H3 as ->.
    + intros H1 H2 H3. apply any_word_in_false in H1 as ->.
      apply any_word_in_false in H2 as ->.
      by apply any_word_in_false in H3 as ->.
Qed.

Lemma parse_user_query_difficulty_witness :
  difficulty (parse_user_query "Moderate back day" None None) = Some "intermediate"
  ∧ difficulty (parse_user_query "leg day" (Some "brutal") None) = Some "brutal".
Proof.
  destruct (parse_user_query_difficulty "Moderate back day" None None) as [_ Hscan].
  destruct (parse_user_query_difficulty "leg day" (Some "brutal") None) as [Hexp _].
  split.
  - destruct (Hscan (or_introl eq_refl)) as (_ & H2 & _).
    apply H2.
    + apply any_word_in_false. vm_compute. reflexivity.
    + apply any_word_in_spec. vm_compute. reflexivity.
  - apply (Hexp "brutal"); [reflexivity | discriminate].
Defined.

(** C5 as stated fails for the empty string: it is an explicit difficulty
    string, yet the query is scanned and decides. *)
Lemma explicit_empty_difficulty_is_scanned :
  difficulty (parse_user_query "easy leg day" (Some EmptyString) None) = Some "beginner"
  ∧ difficulty (parse_user_query "easy leg day" (Some EmptyString) None) ≠ Some EmptyString.
Proof. split; [vm_compute; reflexivity | vm_compute; discriminate]. Qed.

(** C6: the scenario query. *)
Theorem parse_user_query_scenario :
  let p := parse_user_query "beginner chest workout with dumbbells" None None in
  difficulty p = Some "beginner"
  ∧ "chest" ∈ muscles p
  ∧ body_parts p = {["Chest"]}
  ∧ equipment p = {["dumbbell"]}.
Proof.
  intros p.
  assert (Hm : muscles p = {["chest"]}) by (vm_compute; reflexivity).
  split_and!.
  - vm_compute. reflexivity.
  - rewrite Hm. by apply elem_of_singleton.
  - vm_compute. reflexivity.
  - vm_compute. reflexivity.
Qed.

Lemma all_muscles_mapped : Forall (fun m => is_Some (MUSCLE_TO_BODYPART !! m)) ALL_MUSCLES.
Proof.
  apply (bool_decide_unpack (Forall (fun m => is_Some (MUSCLE_TO_BODYPART !! m)) ALL_MUSCLES)).
  vm_compute. exact I.
Qed.

Lemma Forall_cond_app {A} (P : A → Prop) (b : bool) (xs ys : list A) :
  Forall P xs → Forall P ys → Forall P (if b then xs ++ ys else xs).
Proof. intros Hx Hy. destruct b; [by apply Forall_app | done]. Qed.

Lemma append_if_absent_Forall (P : string → Prop) x xs :
  P x → Forall P xs → Forall P (append_if_absent x xs).
Proof.
  intros Hx Hxs. unfold append_if_absent.
  apply Forall_cond_app; [done | by constructor].
Qed.

(** Every muscle the parser collects comes from the vocabulary. *)
Lemma extract_muscles_known ql : Forall (fun m => m ∈ ALL_MUSCLES) (extract_muscles ql).
Proof.
  unfold extract_muscles.
  assert (Hbase : Forall (fun m => m ∈ ALL_MUSCLES)
                    (List.filter (fun muscle => PyStr.contains muscle ql) ALL_MUSCLES)).
  { apply Forall_forall. intros m Hm.
    apply list_elem_of_In, List.filter_In in Hm as [Hm _]. by apply list_elem_of_In. }
  assert (Hin : ∀ ws, bool_decide (Forall (fun m => m ∈ ALL_MUSCLES) ws) = true →
                      Forall (fun m => m ∈ ALL_MUSCLES) ws).
  { intros ws H. by apply bool_decide_eq_true in H. }
  cbv zeta.
  apply Forall_cond_app; [|by apply Hin].
  apply Forall_cond_app; [|by apply Hin].
  apply Forall_cond_app; [|by apply Hin].
  destruct (PyStr.contains "arms" ql); [|done].
  apply append_if_absent_Forall; [by apply (bool_decide_unpack ("triceps" ∈ ALL_MUSCLES))|].
  apply append_if_absent_Forall; [by apply (bool_decide_unpack ("biceps" ∈ ALL_MUSCLES)) | done].
Qed.

Lemma parsed_muscle_mapped q d e m :
  m ∈ muscles (parse_user_query q d e) → is_Some (MUSCLE_TO_BODYPART !! m).
Proof.
  simpl. rewrite elem_of_list_to_set. intros Hm.
  pose proof (extract_muscles_known (PyStr.lower q)) as Hk.
  rewrite Forall_forall in Hk. specialize (Hk m Hm).
  pose proof all_muscles_mapped as Ha. rewrite Forall_forall in Ha. by apply Ha.
Qed.

Lemma elem_of_map_body_parts ms bp :
  bp ∈ map_body_parts ms ↔ ∃ m, m ∈ ms ∧ bodypart_of m = bp.
Proof.
  unfold map_body_parts. case_bool_decide as Hms.
  - subst ms. split; [intros H; by apply not_elem_of_empty in H|].
    intros [m [Hm _]]. by apply not_elem_of_empty in Hm.
  - rewrite elem_of_list_to_set, list_elem_of_fmap.
    split; intros [m [H1 H2]]; exists m.
    + by apply elem_of_elements in H2.
    + by rewrite elem_of_elements.
Qed.

(** C10: every parsed muscle is a key of [MUSCLE_TO_BODYPART], so the
    "Chest" default is never taken: each parsed body part is the table's
    value at a parsed muscle, the body parts lie in the table's range, and
    they are empty exactly when the muscles are. *)
Theorem parsed_muscles_are_mapped (query : string) (d : option string)
    (eqp : option (list string)) :
  let p := parse_user_query query d eqp in
  (∀ m, m ∈ muscles p → m ∈ dom MUSCLE_TO_BODYPART)
  ∧ (∀ m, m ∈ muscles p → MUSCLE_TO_BODYPART !! m = Some (bodypart_of m))
  ∧ (∀ bp, bp ∈ body_parts p ↔ ∃ m, m ∈ muscles p ∧ MUSCLE_TO_BODYPART !! m = Some bp)
  ∧ body_parts p ⊆ map_img MUSCLE_TO_BODYPART
  ∧ (body_parts p = ∅ ↔ muscles p = ∅).
Proof.
  intros p.
  assert (Hmapped : ∀ m, m ∈ muscles p → MUSCLE_TO_BODYPART !! m = Some (bodypart_of m)).
  { intros m Hm. destruct (parsed_muscle_mapped _ _ _ _ Hm) as [bp Hbp].
    unfold bodypart_of. by rewrite Hbp. }
  assert (Hbp : ∀ bp, bp ∈ body_parts p ↔
                      ∃ m, m ∈ muscles p ∧ MUSCLE_TO_BODYPART !! m = Some bp).
  { intros bp. change (body_parts p) with (map_body_parts (muscles p)).
    rewrite elem_of_map_body_parts. split; intros [m [Hm Hv]]; exists m; split; try done.
    - rewrite (Hmapped m Hm). by rewrite Hv.
    - rewrite (Hmapped m Hm) in Hv. congruence. }
  split_and!; [|done|done| |].
  - intros m Hm. apply elem_of_dom. by eapply parsed_muscle_mapped.
  - intros bp Hin. apply Hbp in Hin as [m [_ Hv]].
    apply elem_of_map_img. by exists m.
  - split.
    + intros Hempty. apply set_eq. intros m. split; [|by intros H%not_elem_of_empty].
      intros Hm. exfalso. apply (not_elem_of_empty (C:=gset string) (bodypart_of m)).
      rewrite <- Hempty. apply Hbp. exists m. split; [done | by apply Hmapped].
    + intros Hempty. change (body_parts p) with (map_body_parts (muscles p)).
      unfold map_body_parts. by rewrite bool_decide_eq_true_2.
Qed.

(** ** Reconciliation *)

Lemma reconcile_loop_omap emap items acc :
  reconcile_loop emap items acc = acc ++ omap (reconcile_item emap) items.
Proof.
  revert acc. induction items as [|item items IH]; intros acc; simpl.
  - by rewrite app_nil_r.
  - destruct (reconcile_item emap item) as [e|]; rewrite IH; [|done].
    by rewrite <- app_assoc.
Qed.

Lemma omap_cons {A B} (f : A → option B) (x : A) (l : list A) :
  omap f (x :: l) = match f x with Some y => y :: omap f l | None => omap f l end.
Proof. reflexivity. Qed.

Lemma length_omap_le {A B} (f : A → option B) (l : list A) :
  (length (omap f l) ≤ length l)%nat.
Proof.
  induction l as [|x l IH]; [done|].
  rewrite omap_cons. destruct (f x); simpl; lia.
Qed.

Lemma reconcile_omap plan all :
  reconcile plan all = omap (reconcile_item (exercise_map all)) (default [] (exercises plan)).
Proof. unfold reconcile. by rewrite reconcile_loop_omap. Qed.

Section ExerciseMap.

Implicit Types (m : gmap (option string) ExerciseRecord) (all : list ExerciseRecord).

Lemma index_records_lookup_Some m all k rec :
  index_records m all !! k = Some rec →
  (rec ∈ all ∧ exerciseId rec = k) ∨ m !! k = Some rec.
Proof.
  revert m. induction all as [|ex all IH]; intros m; simpl; [by right|].
  intros H. apply IH in H as [[Hin Hk] | H].
  - left. split; [by right | done].
  - destruct (decide (exerciseId ex = k)) as [Heq | Hne].
    + rewrite Heq, lookup_insert_eq in H. injection H as <-. left. split; [by left | done].
    + rewrite lookup_insert_ne in H by done. by right.
Qed.

Lemma index_records_lookup_is_Some m all k :
  is_Some (m !! k) ∨ (∃ rec, rec ∈ all ∧ exerciseId rec = k) →
  is_Some (index_records m all !! k).
Proof.
  revert m. induction all as [|ex all IH]; intros m; simpl.
  - intros [H | [rec [Hin _]]]; [done | by apply elem_of_nil in Hin].
  - intros H. apply IH.
    destruct (decide (exerciseId ex = k)) as [Heq | Hne].
    + left. rewrite Heq, lookup_insert_eq. by eexists.
    + destruct H as [H | [rec [Hin Hk]]].
      * left. by rewrite lookup_insert_ne.
      * apply elem_of_cons in Hin as [-> | Hin]; [done|]. right. by exists rec.
Qed.

(** What the index holds at a key is a catalog record with that id. *)
Lemma exercise_map_lookup_Some all k rec :
  exercise_map all !! k = Some rec → rec ∈ all ∧ exerciseId rec = k.
Proof.
  intros H. apply index_records_lookup_Some in H as [H | H]; [done|].
  by rewrite lookup_empty in H.
Qed.

(** The index holds every id of the catalog. *)
Lemma exercise_map_lookup_is_Some all k :
  (∃ rec, rec ∈ all ∧ exerciseId rec = k) → is_Some (exercise_map all !! k).
Proof. intros H. apply index_records_lookup_is_Some. by right. Qed.

Lemma exercise_map_lookup_None all k :
  (∀ rec, rec ∈ all → exerciseId rec ≠ k) → exercise_map all !! k = None.
Proof.
  intros H. destruct (exercise_map all !! k) as [rec|] eqn:Hl; [|done].
  apply exercise_map_lookup_Some in Hl as [Hin Hk]. by destruct (H rec Hin).
Qed.

End ExerciseMap.

Lemma reconcile_item_Some all item e :
  reconcile_item (exercise_map all) item = Some e →
  ∃ ex_id rec, PlanItem.id item = Some ex_id ∧ ex_id ≠ EmptyString
    ∧ rec ∈ all ∧ exerciseId rec = Some ex_id ∧ e = merge_entry rec item.
Proof.
  unfold reconcile_item. destruct (PlanItem.id item) as [ex_id|]; [|done].
  destruct ex_id as [|c r] eqn:Hid; simpl; [done|]. rewrite <- Hid.
  destruct (exercise_map all !! Some ex_id) as [rec|] eqn:Hl; [|done].
  intros [= <-]. apply exercise_map_lookup_Some in Hl as [Hin Hk].
  exists ex_id, rec. split_and!; try done. by subst.
Qed.

Lemma reconcile_item_id all item e :
  reconcile_item (exercise_map all) item = Some e → Reconciled.id e = PlanItem.id item.
Proof.
  intros H. apply reconcile_item_Some in H as (ex_id & rec & Hid & _ & _ & Hk & ->).
  simpl. congruence.
Qed.

(** C3: reconciliation walks the plan's items in order and keeps, for each
    item, at most one entry; an item whose id no catalog record has is
    dropped.  So every output id is the id of a catalog record, the output
    is no longer than the plan's item list, and the output ids are a
    subsequence of the plan's ids. *)
Theorem reconcile_drops_unknown_ids (plan : WorkoutPlan) (all_exercises : list ExerciseRecord) :
  let items := default [] (exercises plan) in
  let out := reconcile plan all_exercises in
  out = omap (reconcile_item (exercise_map all_exercises)) items
  ∧ (∀ item, (∀ rec, rec ∈ all_exercises → exerciseId rec ≠ PlanItem.id item) →
       reconcile_item (exercise_map all_exercises) item = None)
  ∧ (∀ e, e ∈ out → ∃ rec, rec ∈ all_exercises ∧ exerciseId rec = Reconciled.id e)
  ∧ (length out ≤ length items)%nat
  ∧ Reconciled.id <$> out `sublist_of` PlanItem.id <$> items.
Proof.
  intros items out. subst out. rewrite reconcile_omap. fold items.
  clearbody items. split_and!.
  - done.
  - intros item Hnone. unfold reconcile_item.
    destruct (PlanItem.id item) as [ex_id|] eqn:Hid; [|done].
    rewrite (exercise_map_lookup_None all_exercises (Some ex_id)) by done.
    by destruct (PyStr.truthy ex_id).
  - intros e He. apply list_elem_of_omap in He as (item & _ & He).
    apply reconcile_item_Some in He as (ex_id & rec & _ & _ & Hin & Hk & ->).
    by exists rec.
  - apply length_omap_le.
  - induction items as [|item items' IH]; [done|].
    rewrite omap_cons, fmap_cons.
    destruct (reconcile_item _ item) as [e|] eqn:He.
    + rewrite fmap_cons. rewrite (reconcile_item_id _ _ _ He). by apply sublist_skip.
    + by apply sublist_cons.
Qed.

(** Of three plan ids one is unknown: two entries come out, in the plan's
    order, the second with every default. *)
Example reconcile_sample :
  map (fun e => (Reconciled.id e, Reconciled.sets e, Reconciled.reps e,
                 Reconciled.restSeconds e, Reconciled.trainerNotes e))
      (reconcile sample_plan sample_catalog)
  = [ (Some "0004", 4%Z, "8-10", 90%Z, "Slow");
      (Some "0001", 3%Z, "10-12", 60%Z, EmptyString) ].
Proof. vm_compute. reflexivity. Qed.

Example reconcile_sample_url :
  map Reconciled.youtubeSearchUrl (reconcile sample_plan sample_catalog)
  = [ "https://www.youtube.com/results?search_query=exercise%200004%20exercise%20tutorial";
      "https://www.youtube.com/results?search_query=exercise%200001%20exercise%20tutorial" ].
Proof. vm_compute. reflexivity. Qed.

(** C9, as the code has it: for a plan item whose id is non-empty and is
    the id of a catalog record, reconciliation produces an entry; a plan
    field that is absent gets its default (3 sets, "10-12" reps, 60
    seconds of rest, empty notes) and a field that is present is copied. *)
Theorem reconcile_fills_defaults (all_exercises : list ExerciseRecord)
    (item : PlanItem.t) (ex_id : string) :
  PlanItem.id item = Some ex_id →
  ex_id ≠ EmptyString →
  (∃ rec, rec ∈ all_exercises ∧ exerciseId rec = Some ex_id) →
  ∃ e, reconcile_item (exercise_map all_exercises) item = Some e
    ∧ (∀ plan, item ∈ default [] (exercises plan) → e ∈ reconcile plan all_exercises)
    ∧ (PlanItem.sets item = None → Reconciled.sets e = 3%Z)
    ∧ (∀ n, PlanItem.sets item = Some n → Reconciled.sets e = n)
    ∧ (PlanItem.reps item = None → Reconciled.reps e = "10-12")
    ∧ (∀ r, PlanItem.reps item = Some r → Reconciled.reps e = r)
    ∧ (PlanItem.rest_seconds item = None → Reconciled.restSeconds e = 60%Z)
    ∧ (∀ n, PlanItem.rest_seconds item = Some n → Reconciled.restSeconds e = n)
    ∧ (PlanItem.trainer_notes item = None → Reconciled.trainerNotes e = EmptyString)
    ∧ (∀ s, PlanItem.trainer_notes item = Some s → Reconciled.trainerNotes e = s).
Proof.
  intros Hid Hne Hfound.
  destruct (exercise_map_lookup_is_Some all_exercises (Some ex_id) Hfound) as [rec Hrec].
  assert (Hitem : reconcile_item (exercise_map all_exercises) item
                  = Some (merge_entry rec item)).
  { unfold reconcile_item. rewrite Hid, Hrec. by destruct ex_id. }
  exists (merge_entry rec item). split; [done|]. split.
  - intros plan Hin. rewrite reconcile_omap. apply list_elem_of_omap. by exists item.
  - simpl. split_and!; try (by intros ->); by intros ? ->.
Qed.

Lemma reconcile_fills_defaults_witness :
  reconcile
    {| summary := None; workout_focus := None; estimated_time := None;
       plan_difficulty := None;
       exercises := Some [PlanItem.mk (Some "0002") None (Some "8") None None];
       warmup_recommendation := None; cooldown_recommendation := None |}
    sample_catalog
  = [merge_entry (sample_record "0002" ["Back"] ["Cable"])
       (PlanItem.mk (Some "0002") None (Some "8") None None)]
  ∧ ∃ e, reconcile_item (exercise_map sample_catalog)
           (PlanItem.mk (Some "0002") None (Some "8") None None) = Some e
         ∧ Reconciled.sets e = 3%Z ∧ Reconciled.reps e = "8".
Proof.
  split; [vm_compute; reflexivity|].
  destruct (reconcile_fills_defaults sample_catalog
              (PlanItem.mk (Some "0002") None (Some "8") None None) "0002")
    as (e & He & _ & Hs & _ & _ & Hr & _).
  - reflexivity.
  - discriminate.
  - exists (sample_record "0002" ["Back"] ["Cable"]). split; [|reflexivity].
    apply list_elem_of_In. vm_compute. tauto.
  - exists e. split_and!; [exact He | by apply Hs | by apply Hr].
Defined.

(** C9 as stated fails when the id is the empty string: the catalog has a
    record with that id, yet the item is dropped and no field is filled. *)
Lemma found_empty_id_is_dropped :
  (∃ rec, rec ∈ [sample_record EmptyString ["Chest"] ["Barbell"]]
          ∧ exerciseId rec = PlanItem.id (PlanItem.mk (Some EmptyString) None None None None))
  ∧ reconcile
      {| summary := None; workout_focus := None; estimated_time := None;
         plan_difficulty := None;
         exercises := Some [PlanItem.mk (Some EmptyString) None None None None];
         warmup_recommendation := None; cooldown_recommendation := None |}
      [sample_record EmptyString ["Chest"] ["Barbell"]]
    = [].
Proof.
  split.
  - exists (sample_record EmptyString ["Chest"] ["Barbell"]). split; [by left | reflexivity].
  - vm_compute. reflexivity.
Qed.

(** ** Media URLs *)

(** What the loop does to a URL field: it is decided by the literal
    prefix ["http"]. *)
Lemma enrich_url_spec cdn u :
  enrich_url cdn (Some u) =
    if PyStr.truthy u && negb (PyStr.startswith "http" u)
    then Some (cdn +:+ "/" +:+ u) else Some u.
Proof. unfold enrich_url. by destruct (PyStr.truthy u), (PyStr.startswith "http" u). Qed.

(** C4 at two inputs: an absolute URL whose scheme is not http is
    prefixed with the CDN base, and a relative URL that starts with the
    letters "http" is left as it is. *)
Theorem enrich_decides_on_http_prefix :
  Scheme.begins_with_scheme "ftp://media.example.org/0001.png" = true
  ∧ imageUrl (enrich {| exerciseId := Some "0001"; name := None; bodyParts := None;
                        equipments := None; targetMuscles := None;
                        secondaryMuscles := None; exerciseType := None;
                        imageUrl := Some "ftp://media.example.org/0001.png";
                        videoUrl := Some "httpdocs/0001.mp4" |})
    = Some "https://exercisedb.b-cdn.net/exercises-thumbnails/ftp://media.example.org/0001.png"
  ∧ Scheme.begins_with_scheme "httpdocs/0001.mp4" = false
  ∧ videoUrl (enrich {| exerciseId := Some "0001"; name := None; bodyParts := None;
                        equipments := None; targetMuscles := None;
                        secondaryMuscles := None; exerciseType := None;
                        imageUrl := Some "ftp://media.example.org/0001.png";
                        videoUrl := Some "httpdocs/0001.mp4" |})
    = Some "httpdocs/0001.mp4".
Proof. split_and!; vm_compute; reflexivity. Qed.

(** ** Fenced answers *)

Lemma startswith_cons a p b s :
  PyStr.startswith (String a p) (String b s)
  = if Ascii.eqb a b then PyStr.startswith p s else false.
Proof. reflexivity. Qed.

Lemma space_not_backtick c : PyStr.is_space c = true → Ascii.eqb "`" c = false.
Proof.
  intros H. destruct (Ascii.eqb_spec "`"%char c) as [<-|]; [|done]. discriminate.
Qed.

Lemma startswith_fence_space c r :
  PyStr.is_space c = true → PyStr.startswith Fence.fence (String c r) = false.
Proof.
  intros H. unfold Fence.fence. by rewrite startswith_cons, space_not_backtick.
Qed.

Lemma contains_false_cons w c s :
  PyStr.contains w (String c s) = false →
  PyStr.startswith w (String c s) = false ∧ PyStr.contains w s = false.
Proof.
  change (PyStr.contains w (String c s))
    with (PyStr.startswith w (String c s) || PyStr.contains w s).
  by intros H%orb_false_iff.
Qed.

(** A text without a fence, followed by a line feed, does not start with
    a fence either, whatever comes next. *)
Lemma startswith_fence_app_LF t w :
  PyStr.contains Fence.fence t = false →
  PyStr.startswith Fence.fence (t +:+ LF +:+ w) = false.
Proof.
  intros H. unfold Fence.fence in *.
  destruct t as [|a [|b [|c t]]]; rewrite ?append_cons, ?append_empty.
  - reflexivity.
  - rewrite startswith_cons. by destruct (Ascii.eqb "`" a).
  - rewrite 2!startswith_cons. by destruct (Ascii.eqb "`" a), (Ascii.eqb "`" b).
  - apply contains_false_cons in H as [H _].
    rewrite 3!startswith_cons in H. rewrite 3!startswith_cons.
    by destruct (Ascii.eqb "`" a), (Ascii.eqb "`" b), (Ascii.eqb "`" c).
Qed.

Lemma lazy_group_unfold s :
  Fence.lazy_group s =
    if PyStr.startswith Fence.fence s then Some EmptyString
    else match s with
         | EmptyString => None
         | String c r => String c <$> Fence.lazy_group r
         end.
Proof. by destruct s. Qed.

(** The lazy group stops at the closing fence of a wrapped text. *)
Lemma lazy_group_wrapped t :
  PyStr.contains Fence.fence t = false →
  Fence.lazy_group (t +:+ LF +:+ Fence.fence) = Some (t +:+ LF).
Proof.
  induction t as [|c t IH]; intros H; [reflexivity|].
  rewrite lazy_group_unfold, startswith_fence_app_LF by done.
  apply contains_false_cons in H as [_ H].
  rewrite append_cons, IH by done. reflexivity.
Qed.

Lemma spaces_then_group_cons c r :
  Fence.spaces_then_group (String c r) =
    if PyStr.is_space c then
      match Fence.spaces_then_group r with
      | Some g => Some g
      | None => Fence.lazy_group (String c r)
      end
    else Fence.lazy_group (String c r).
Proof. reflexivity. Qed.

Lemma lstrip_cons c s :
  PyStr.lstrip (String c s) = if PyStr.is_space c then PyStr.lstrip s else String c s.
Proof. reflexivity. Qed.

(** The greedy white space never has to be given back: what it skips is
    the leading white space of the lazy group. *)
Lemma spaces_then_group_lazy s g :
  Fence.lazy_group s = Some g → Fence.spaces_then_group s = Some (PyStr.lstrip g).
Proof.
  revert g. induction s as [|c r IH]; intros g Hg; [discriminate|].
  rewrite spaces_then_group_cons. destruct (PyStr.is_space c) eqn:Hc.
  - rewrite lazy_group_unfold, startswith_fence_space in Hg by done.
    destruct (Fence.lazy_group r) as [g'|]; [|discriminate].
    injection Hg as <-. rewrite (IH g' eq_refl). by rewrite lstrip_cons, Hc.
  - rewrite Hg. f_equal. rewrite lazy_group_unfold in Hg.
    destruct (PyStr.startswith Fence.fence (String c r)); [by injection Hg as <-|].
    destruct (Fence.lazy_group r) as [g'|]; [|discriminate].
    injection Hg as <-. by rewrite lstrip_cons, Hc.
Qed.

Lemma rstrip_app_LF s : PyStr.rstrip (s +:+ LF) = PyStr.rstrip s.
Proof.
  induction s as [|c s IH]; [reflexivity|].
  rewrite append_cons. simpl. by rewrite IH.
Qed.

Lemma lstrip_idemp s : PyStr.lstrip (PyStr.lstrip s) = PyStr.lstrip s.
Proof.
  induction s as [|c s IH]; [done|]. rewrite lstrip_cons.
  destruct (PyStr.is_space c) eqn:Hc; [done|]. by rewrite lstrip_cons, Hc.
Qed.

Lemma rstrip_lstrip_app_LF t :
  PyStr.rstrip (PyStr.lstrip (t +:+ LF)) = PyStr.rstrip (PyStr.lstrip t).
Proof.
  induction t as [|c t IH]; [reflexivity|].
  rewrite append_cons, !lstrip_cons. destruct (PyStr.is_space c); [done|].
  by rewrite <- append_cons, rstrip_app_LF.
Qed.

(** The group a wrapped text leaves, once stripped, is the stripped text. *)
Lemma strip_group_wrapped t :
  PyStr.strip (PyStr.lstrip (LF +:+ t +:+ LF)) = PyStr.strip t.
Proof.
  unfold PyStr.strip.
  change (PyStr.lstrip (LF +:+ t +:+ LF)) with (PyStr.lstrip (t +:+ LF)).
  by rewrite lstrip_idemp, rstrip_lstrip_app_LF.
Qed.

Lemma search_wrapped t :
  PyStr.contains Fence.fence t = false →
  Fence.search (fenced_json t) = Some (PyStr.lstrip (LF +:+ t +:+ LF))
  ∧ Fence.search (fenced_plain t) = Some (PyStr.lstrip (LF +:+ t +:+ LF)).
Proof.
  intros H.
  assert (Hg : Fence.spaces_then_group (LF +:+ t +:+ LF +:+ Fence.fence)
               = Some (PyStr.lstrip (LF +:+ t +:+ LF))).
  { apply spaces_then_group_lazy.
    change (LF +:+ t +:+ LF +:+ Fence.fence)
      with (String (ascii_of_nat 10) (t +:+ LF +:+ Fence.fence)).
    rewrite lazy_group_unfold, startswith_fence_space by done.
    by rewrite lazy_group_wrapped. }
  split.
  - change (Fence.search (fenced_json t))
      with (match Fence.match_here (fenced_json t) with
            | Some g => Some g
            | None => Fence.search ("``json" +:+ LF +:+ t +:+ LF +:+ "```")
            end).
    change (Fence.match_here (fenced_json t))
      with (match Fence.spaces_then_group (LF +:+ t +:+ LF +:+ Fence.fence) with
            | Some g => Some g
            | None => Fence.spaces_then_group ("json" +:+ LF +:+ t +:+ LF +:+ Fence.fence)
            end).
    by rewrite Hg.
  - change (Fence.search (fenced_plain t))
      with (match Fence.match_here (fenced_plain t) with
            | Some g => Some g
            | None => Fence.search ("``" +:+ LF +:+ t +:+ LF +:+ "```")
            end).
    change (Fence.match_here (fenced_plain t))
      with (Fence.spaces_then_group (LF +:+ t +:+ LF +:+ Fence.fence)).
    by rewrite Hg.
Qed.

(** The fence is found inside prose; a fence that is never closed is no
    match, and the text goes to the parser as it is. *)
Example extract_json_in_prose :
  extract_json ("Here is your plan: ```json" +:+ LF +:+ "[1, 2]" +:+ LF +:+ "``` Enjoy!")
  = "[1, 2]".
Proof. vm_compute. reflexivity. Qed.

Example extract_json_unclosed : extract_json "```json [1, 2]" = "```json [1, 2]".
Proof. vm_compute. reflexivity. Qed.

(** With or without the tag, the text handed to the JSON parser is the
    stripped answer. *)
Lemma extract_json_fenced t :
  PyStr.contains Fence.fence t = false →
  extract_json (fenced_json t) = PyStr.strip t
  ∧ extract_json (fenced_plain t) = PyStr.strip t.
Proof.
  intros H. destruct (search_wrapped t H) as [Hj Hp].
  unfold extract_json. rewrite Hj, Hp, strip_group_wrapped.
  split; reflexivity.
Qed.

Lemma extract_json_bare t :
  PyStr.contains Fence.fence t = false → extract_json t = t.
Proof. intros H. unfold extract_json. by rewrite H. Qed.

Section PlanResponseFacts.

Variable Json : Type.
Variable json_loads : string → option Json.

(** [json.loads] skips the white space around a document: a text that
    parses still parses, to the same object, once stripped.  (A JSON
    document is a value between runs of space, TAB, LF and CR; the value
    neither starts nor ends with a white-space character, so stripping
    removes exactly those runs.) *)
Hypothesis json_loads_strip :
  ∀ s v, json_loads s = Some v → json_loads (PyStr.strip s) = Some v.

(** C7: a JSON text without a triple backtick is parsed to the same
    object bare, fenced with the "json" tag and fenced without a tag. *)
Theorem parse_response_fence_invariant (t : string) (v : Json) :
  PyStr.contains Fence.fence t = false →
  json_loads t = Some v →
  parse_response Json json_loads t = Some v
  ∧ parse_response Json json_loads (fenced_json t) = Some v
  ∧ parse_response Json json_loads (fenced_plain t) = Some v.
Proof.
  intros Hf Hv. unfold parse_response.
  destruct (extract_json_fenced t Hf) as [-> ->].
  rewrite (extract_json_bare t Hf).
  split_and!; [done | by apply json_loads_strip..].
Qed.

End PlanResponseFacts.

Lemma loads_literal_strip s v :
  loads_literal s = Some v → loads_literal (PyStr.strip s) = Some v.
Proof.
  unfold loads_literal. cbv zeta.
  destruct (String.eqb_spec (PyStr.strip s) "null") as [->|_]; [done|].
  destruct (String.eqb_spec (PyStr.strip s) "true") as [->|_]; [done|].
  destruct (String.eqb_spec (PyStr.strip s) "false") as [->|_]; [done|].
  discriminate.
Qed.

Lemma parse_response_fence_invariant_witness :
  parse_response JsonLit loads_literal " true" = Some JTrue
  ∧ parse_response JsonLit loads_literal (fenced_json " true") = Some JTrue
  ∧ parse_response JsonLit loads_literal (fenced_plain " true") = Some JTrue.
Proof.
  apply (parse_response_fence_invariant JsonLit loads_literal loads_literal_strip
           " true" JTrue).
  - vm_compute. reflexivity.
  - vm_compute. reflexivity.
Defined.

(** ** More on the filter *)

Lemma matches_body_part_with_spec upper bps ex :
  matches_body_part_with upper bps ex = true ↔ BodyPartMatchWith upper bps ex.
Proof.
  unfold matches_body_part_with, BodyPartMatchWith. rewrite existsb_exists. split.
  - intros [bp [Hin Hm]]. apply mem_spec in Hm.
    apply list_elem_of_fmap in Hm as [p [Hp Hinp]].
    exists bp, p. split_and!; [|done..].
    apply elem_of_elements. by apply list_elem_of_In.
  - intros [bp [p (Hbp & Hp & Hu)]]. exists bp. split.
    + apply list_elem_of_In. by apply elem_of_elements.
    + apply mem_spec. rewrite Hu. by apply list_elem_of_fmap_2.
Qed.

Lemma filter_sublist {A} (f : A → bool) (l : list A) : List.filter f l `sublist_of` l.
Proof.
  induction l as [|x l IH]; simpl; [done|].
  destruct (f x); [by apply sublist_skip | by apply sublist_cons].
Qed.

Lemma filter_all {A} (f : A → bool) (l : list A) :
  Forall (fun x => f x = true) l → List.filter f l = l.
Proof.
  induction 1 as [|x l Hx _ IH]; simpl; [done|]. by rewrite Hx, IH.
Qed.

Lemma filter_Forall {A} (f : A → bool) (l : list A) :
  Forall (fun x => f x = true) (List.filter f l).
Proof.
  apply Forall_forall. intros x Hx. by apply list_elem_of_In, List.filter_In in Hx as [_ Hx].
Qed.

Lemma filter_take_length {A} (f : A → bool) (n : nat) (l : list A) :
  (length (List.filter f (take n l)) ≤ length (List.filter f l))%nat.
Proof.
  revert n. induction l as [|x l IH]; intros [|n]; simpl; try lia.
  specialize (IH n). destruct (f x); simpl; lia.
Qed.

Lemma body_part_step_sublist p l : body_part_step p l `sublist_of` l.
Proof. unfold body_part_step. case_bool_decide; [done | apply filter_sublist]. Qed.

Lemma equipment_step_cases p l :
  equipment_step p l = l
  ∨ (equipment p ≠ ∅
     ∧ equipment_step p l = List.filter (matches_equipment (equipment p)) l
     ∧ (3 ≤ length (List.filter (matches_equipment (equipment p)) l))%nat).
Proof.
  unfold equipment_step. case_bool_decide as He; [by left|]. cbv zeta.
  destruct (Nat.leb_spec 3 (length (List.filter (matches_equipment (equipment p)) l)));
    [by right | by left].
Qed.

Lemma equipment_step_sublist p l : equipment_step p l `sublist_of` l.
Proof.
  destruct (equipment_step_cases p l) as [-> | (_ & -> & _)]; [done | apply filter_sublist].
Qed.

Lemma equipment_step_enough p l :
  (3 ≤ length l)%nat → (3 ≤ length (equipment_step p l))%nat.
Proof. intros H. by destruct (equipment_step_cases p l) as [-> | (_ & -> & ?)]. Qed.

Lemma candidates_sublist p l : equipment_step p (body_part_step p l) `sublist_of` l.
Proof.
  etrans; [apply equipment_step_sublist | apply body_part_step_sublist].
Qed.

Lemma filter_exercises_cases exercises params :
  let candidates := equipment_step params (body_part_step params exercises) in
  ((length candidates < 3)%nat ∧ filter_exercises exercises params = take 30 exercises)
  ∨ ((3 ≤ length candidates)%nat ∧ filter_exercises exercises params = take 30 candidates).
Proof.
  intros candidates. unfold filter_exercises, fallback_step. fold candidates.
  destruct (Nat.ltb_spec (length candidates) 3); [left | right]; split; try done.
  by rewrite take_take, Nat.min_id.
Qed.

(** X1: the filter never returns more than 30 records. *)
Theorem filter_exercises_at_most_30 (exercises : list ExerciseRecord) (params : QueryParams) :
  (length (filter_exercises exercises params) ≤ 30)%nat.
Proof.
  destruct (filter_exercises_cases exercises params) as [[_ ->] | [_ ->]];
    rewrite length_take; lia.
Qed.

(** X2: the filter invents and reorders nothing: its output is a subsequence
    of the catalog. *)
Theorem filter_exercises_sublist (exercises : list ExerciseRecord) (params : QueryParams) :
  filter_exercises exercises params `sublist_of` exercises.
Proof.
  destruct (filter_exercises_cases exercises params) as [[_ ->] | [_ ->]].
  - apply sublist_take.
  - etrans; [apply sublist_take | apply candidates_sublist].
Qed.

(** X3: with neither body parts nor equipment to filter on, the filter is the
    truncation to 30 records. *)
Theorem filter_exercises_no_criteria (exercises : list ExerciseRecord) (params : QueryParams) :
  body_parts params = ∅ → equipment params = ∅ →
  filter_exercises exercises params = take 30 exercises.
Proof.
  intros Hb He.
  assert (Hc : equipment_step params (body_part_step params exercises) = exercises).
  { unfold equipment_step, body_part_step. by rewrite !bool_decide_eq_true_2. }
  destruct (filter_exercises_cases exercises params) as [[_ ->] | [_ ->]]; [done|].
  by rewrite Hc.
Qed.

(** The steps over arbitrary case maps. *)
Section CaseMapsFacts.

Variables lower upper : string → string.

Lemma equipment_step_with_cases p l :
  equipment_step_with lower p l = l
  ∨ (equipment p ≠ ∅
     ∧ equipment_step_with lower p l
       = List.filter (matches_equipment_with lower (equipment p)) l
     ∧ (3 ≤ length (List.filter (matches_equipment_with lower (equipment p)) l))%nat).
Proof.
  unfold equipment_step_with. case_bool_decide as He; [by left|]. cbv zeta.
  destruct (Nat.leb_spec 3
              (length (List.filter (matches_equipment_with lower (equipment p)) l)));
    [by right | by left].
Qed.

Lemma equipment_step_with_sublist p l : equipment_step_with lower p l `sublist_of` l.
Proof.
  destruct (equipment_step_with_cases p l) as [-> | (_ & -> & _)];
    [done | apply filter_sublist].
Qed.

Lemma equipment_step_with_enough p l :
  (3 ≤ length l)%nat → (3 ≤ length (equipment_step_with lower p l))%nat.
Proof. intros H. by destruct (equipment_step_with_cases p l) as [-> | (_ & -> & ?)]. Qed.

Lemma filter_exercises_with_cases exercises params :
  let candidates :=
    equipment_step_with lower params (body_part_step_with upper params exercises) in
  ((length candidates < 3)%nat
   ∧ filter_exercises_with lower upper exercises params = take 30 exercises)
  ∨ ((3 ≤ length candidates)%nat
     ∧ filter_exercises_with lower upper exercises params = take 30 candidates).
Proof.
  intros candidates. unfold filter_exercises_with, fallback_step. fold candidates.
  destruct (Nat.ltb_spec (length candidates) 3); [left | right]; split; try done.
  by rewrite take_take, Nat.min_id.
Qed.

End CaseMapsFacts.

(** X4: whatever the case maps are, when body parts are requested and at
    least 3 records of the catalog have a body part equal, after [upper],
    to a requested one, every record the filter returns is such a record
    of the catalog. *)
Theorem filter_exercises_body_part_relevant (lower upper : string → string)
    (exercises : list ExerciseRecord) (params : QueryParams) :
  body_parts params ≠ ∅ →
  (3 ≤ length (List.filter (matches_body_part_with upper (body_parts params))
                 exercises))%nat →
  ∀ ex, ex ∈ filter_exercises_with lower upper exercises params →
        ex ∈ exercises ∧ BodyPartMatchWith upper (body_parts params) ex.
Proof.
  intros Hb H3 ex Hex.
  assert (Hstep : body_part_step_with upper params exercises
                  = List.filter (matches_body_part_with upper (body_parts params))
                      exercises).
  { unfold body_part_step_with. by rewrite bool_decide_eq_false_2. }
  pose proof (equipment_step_with_enough lower params
                (body_part_step_with upper params exercises)) as Hen.
  rewrite Hstep in Hen. specialize (Hen H3).
  destruct (filter_exercises_with_cases lower upper exercises params)
    as [[Hlt _] | [_ Heq]].
  { rewrite Hstep in Hlt. lia. }
  rewrite Heq, Hstep in Hex.
  apply (λ H, elem_of_sublist _ _ _ H (sublist_take _ _)) in Hex.
  apply (λ H, elem_of_sublist _ _ _ H (equipment_step_with_sublist lower _ _)) in Hex.
  apply list_elem_of_In, List.filter_In in Hex as [Hin Hm].
  split; [by apply list_elem_of_In | by apply matches_body_part_with_spec].
Qed.

(** X5: whatever the case maps are, when equipment is requested and at
    least 3 of the body-part candidates have an equipment equal, after
    [lower], to a requested one, the filter returns the first 30 of
    exactly those candidates, so every returned record has such an
    equipment. *)
Theorem filter_exercises_equipment_applied (lower upper : string → string)
    (exercises : list ExerciseRecord) (params : QueryParams) :
  equipment params ≠ ∅ →
  (3 ≤ length (List.filter (matches_equipment_with lower (equipment params))
                 (body_part_step_with upper params exercises)))%nat →
  filter_exercises_with lower upper exercises params
  = take 30 (List.filter (matches_equipment_with lower (equipment params))
               (body_part_step_with upper params exercises))
  ∧ ∀ ex, ex ∈ filter_exercises_with lower upper exercises params →
          EquipmentMatchWith lower (equipment params) ex.
Proof.
  intros He H3.
  assert (Hstep : equipment_step_with lower params
                    (body_part_step_with upper params exercises)
                  = List.filter (matches_equipment_with lower (equipment params))
                      (body_part_step_with upper params exercises)).
  { unfold equipment_step_with. rewrite bool_decide_eq_false_2 by done. cbv zeta.
    by apply Nat.leb_le in H3 as ->. }
  assert (Hout : filter_exercises_with lower upper exercises params
                 = take 30 (List.filter (matches_equipment_with lower (equipment params))
                              (body_part_step_with upper params exercises))).
  { destruct (filter_exercises_with_cases lower upper exercises params)
      as [[Hlt _] | [_ Heq]].
    - rewrite Hstep in Hlt. lia.
    - by rewrite Heq, Hstep. }
  split; [done|]. intros ex Hex. rewrite Hout in Hex.
  apply (λ H, elem_of_sublist _ _ _ H (sublist_take _ _)) in Hex.
  apply list_elem_of_In, List.filter_In in Hex as [_ Hm].
  by apply matches_equipment_with_spec.
Qed.

Lemma filter_take_all {A} (f : A → bool) (n : nat) (l : list A) :
  Forall (fun x => f x = true) l → List.filter f (take n l) = take n l.
Proof. intros H. apply filter_all. by apply Forall_take. Qed.

Lemma body_part_step_take_length p n l :
  (length (body_part_step p (take n l)) ≤ length (body_part_step p l))%nat.
Proof.
  unfold body_part_step. case_bool_decide.
  - rewrite length_take. lia.
  - apply filter_take_length.
Qed.

(** The body-part step leaves a prefix of its own output alone. *)
Lemma body_part_step_take_fixed p n l :
  Forall (fun x => matches_body_part (body_parts p) x = true) l ∨ body_parts p = ∅ →
  body_part_step p (take n l) = take n l.
Proof.
  unfold body_part_step. case_bool_decide as Hb; [done|].
  intros [Hall | Hem]; [by apply filter_take_all | done].
Qed.

Lemma body_part_step_Forall p l :
  Forall (fun x => matches_body_part (body_parts p) x = true) (body_part_step p l)
  ∨ body_parts p = ∅.
Proof.
  unfold body_part_step. case_bool_decide; [by right | left; apply filter_Forall].
Qed.

Lemma Forall_sublist_of {A} (P : A → Prop) (k l : list A) :
  k `sublist_of` l → Forall P l → Forall P k.
Proof.
  intros Hk Hl. apply Forall_forall. intros x Hx.
  rewrite Forall_forall in Hl. apply Hl. by eapply elem_of_sublist.
Qed.

(** The equipment step leaves the first 30 of its own output alone. *)
Lemma equipment_step_take_fixed p l :
  equipment_step p (take 30 (equipment_step p l)) = take 30 (equipment_step p l).
Proof.
  unfold equipment_step. case_bool_decide as He; [done|]. cbv zeta.
  set (g := matches_equipment (equipment p)).
  destruct (Nat.leb_spec 3 (length (List.filter g l))) as [Hge | Hlt].
  - rewrite filter_take_all by apply filter_Forall.
    by destruct (3 <=? _)%nat.
  - pose proof (filter_take_length g 30 l) as Hle.
    destruct (Nat.leb_spec 3 (length (List.filter g (take 30 l)))); [lia | done].
Qed.

(** X6: filtering the filter's output again, with the same parameters, changes
    nothing. *)
Theorem filter_exercises_idempotent (exercises : list ExerciseRecord) (params : QueryParams) :
  filter_exercises (filter_exercises exercises params) params
  = filter_exercises exercises params.
Proof.
  destruct (filter_exercises_cases exercises params) as [[Hlt Hout] | [Hge Hout]];
    cbv zeta in *; rewrite Hout.
  - assert (Hb : (length (body_part_step params exercises) < 3)%nat).
    { destruct (Nat.lt_ge_cases (length (body_part_step params exercises)) 3); [done|].
      pose proof (equipment_step_enough params (body_part_step params exercises)). lia. }
    pose proof (body_part_step_take_length params 30 exercises) as H1.
    pose proof (sublist_length _ _
                  (equipment_step_sublist params (body_part_step params (take 30 exercises))))
      as H2.
    destruct (filter_exercises_cases (take 30 exercises) params) as [[_ ->] | [Hge' _]];
      cbv zeta in *; [|lia].
    by rewrite take_take, Nat.min_id.
  - set (R := equipment_step params (body_part_step params exercises)) in *.
    assert (HB : body_part_step params (take 30 R) = take 30 R).
    { apply body_part_step_take_fixed.
      destruct (body_part_step_Forall params exercises) as [H | H]; [left | by right].
      eapply Forall_sublist_of; [apply equipment_step_sublist | done]. }
    assert (HE : equipment_step params (take 30 R) = take 30 R).
    { apply equipment_step_take_fixed. }
    destruct (filter_exercises_cases (take 30 R) params) as [[Hlt' _] | [_ ->]];
      cbv zeta in *; rewrite HB, HE in *.
    + rewrite length_take in Hlt'. lia.
    + by rewrite take_take, Nat.min_id.
Qed.

Lemma filter_exercises_no_criteria_witness :
  filter_exercises sample_catalog no_params = sample_catalog.
Proof.
  apply (filter_exercises_no_criteria sample_catalog no_params); reflexivity.
Defined.

Lemma filter_exercises_body_part_relevant_witness :
  BodyPartMatchWith PyStr.upper (body_parts sample_params)
    (sample_record "0103" ["CHEST"; "Shoulders"] ["dumbbell"; "Barbell"]).
Proof.
  eapply (filter_exercises_body_part_relevant PyStr.lower PyStr.upper
            push_catalog sample_params).
  - vm_compute. discriminate.
  - vm_compute. lia.
  - apply list_elem_of_In. vm_compute. tauto.
Defined.

Lemma filter_exercises_equipment_applied_witness :
  map exerciseId (filter_exercises push_catalog sample_params)
  = [Some "0101"; Some "0102"; Some "0103"].
Proof.
  change (filter_exercises push_catalog sample_params)
    with (filter_exercises_with PyStr.lower PyStr.upper push_catalog sample_params).
  destruct (filter_exercises_equipment_applied PyStr.lower PyStr.upper
              push_catalog sample_params) as [-> _].
  - vm_compute. discriminate.
  - vm_compute. lia.
  - vm_compute. reflexivity.
Defined.

(** ** More on the query parser *)

Lemma append_assoc (a b c : string) : (a +:+ b) +:+ c = a +:+ b +:+ c.
Proof. induction a as [|x a IH]; [done|]. by rewrite !append_cons, IH. Qed.

Lemma Substring_refl s : Substring s s.
Proof.
  exists EmptyString, EmptyString. rewrite append_empty.
  induction s as [|c s IH]; [done|]. by rewrite append_cons, <- IH.
Qed.

Lemma Substring_trans a b c : Substring a b → Substring b c → Substring a c.
Proof.
  intros (x & y & ->) (u & v & ->).
  exists (u +:+ x), (y +:+ v). by rewrite !append_assoc.
Qed.

Lemma Substring_app_l w a b : Substring w a → Substring w (a +:+ b).
Proof. intros (x & y & ->). exists x, (y +:+ b). by rewrite !append_assoc. Qed.

Lemma Substring_app_r w a b : Substring w b → Substring w (a +:+ b).
Proof. intros (x & y & ->). exists (a +:+ x), y. by rewrite !append_assoc. Qed.

Lemma lower_app a b : PyStr.lower (a +:+ b) = PyStr.lower a +:+ PyStr.lower b.
Proof.
  induction a as [|c a IH]; [done|].
  rewrite append_cons. unfold PyStr.lower in *. simpl. by rewrite IH.
Qed.

Lemma elem_of_cond_app {A} (b : bool) (xs ys : list A) (x : A) :
  x ∈ (if b then xs ++ ys else xs) ↔ x ∈ xs ∨ (b = true ∧ x ∈ ys).
Proof. destruct b; [rewrite elem_of_app|]; intuition congruence. Qed.

Lemma elem_of_append_if_absent x xs y :
  y ∈ append_if_absent x xs ↔ y ∈ xs ∨ y = x.
Proof.
  unfold append_if_absent. destruct (PyStr.mem x xs) eqn:Hm; simpl.
  - apply mem_spec in Hm. intuition congruence.
  - rewrite elem_of_app, list_elem_of_singleton. intuition congruence.
Qed.

Lemma elem_of_List_filter {A} (f : A → bool) (l : list A) (x : A) :
  x ∈ List.filter f l ↔ x ∈ l ∧ f x = true.
Proof. by rewrite !list_elem_of_In, List.filter_In. Qed.

(** What the muscle list holds, rule by rule. *)
Lemma elem_of_extract_muscles ql m :
  m ∈ extract_muscles ql ↔
    (m ∈ ALL_MUSCLES ∧ Substring m ql)
    ∨ (Substring "arms" ql ∧ m ∈ ["biceps"; "triceps"])
    ∨ (Substring "upper body" ql
       ∧ m ∈ ["chest"; "shoulders"; "biceps"; "triceps"; "back"])
    ∨ (Substring "lower body" ql ∧ m ∈ ["quadriceps"; "hamstrings"; "glutes"; "calves"])
    ∨ ((Substring "full body" ql ∨ Substring "total body" ql)
       ∧ m ∈ ["chest"; "quadriceps"; "back"; "shoulders"; "abs"]).
Proof.
  unfold extract_muscles. cbv zeta.
  rewrite !elem_of_cond_app, orb_true_iff, <- !contains_spec.
  destruct (PyStr.contains "arms" ql).
  - rewrite !elem_of_append_if_absent, elem_of_List_filter.
    rewrite !elem_of_cons, elem_of_nil. intuition congruence.
  - rewrite elem_of_List_filter. intuition congruence.
Qed.

(** With the ASCII case map the parametric parser is the one that is
    evaluated. *)
Lemma parse_user_query_with_ascii : parse_user_query_with PyStr.lower = parse_user_query.
Proof. reflexivity. Qed.

(** X7: whatever the case map [lower] is, the parsed muscles are exactly:
    the vocabulary words that occur in the lowered query, and the muscles
    of each alias ("arms", "upper body", "lower body", "full body" or
    "total body") that occurs in it. *)
Theorem parsed_muscles_spec (lower : string → string) (query : string)
    (d : option string) (eqp : option (list string)) (m : string) :
  let ql := lower query in
  m ∈ muscles (parse_user_query_with lower query d eqp) ↔
    (m ∈ ALL_MUSCLES ∧ Substring m ql)
    ∨ (Substring "arms" ql ∧ m ∈ ["biceps"; "triceps"])
    ∨ (Substring "upper body" ql
       ∧ m ∈ ["chest"; "shoulders"; "biceps"; "triceps"; "back"])
    ∨ (Substring "lower body" ql ∧ m ∈ ["quadriceps"; "hamstrings"; "glutes"; "calves"])
    ∨ ((Substring "full body" ql ∨ Substring "total body" ql)
       ∧ m ∈ ["chest"; "quadriceps"; "back"; "shoulders"; "abs"]).
Proof.
  intros ql. simpl. rewrite elem_of_list_to_set. apply elem_of_extract_muscles.
Qed.

(** X8: the alias rules: a lowered query that mentions "arms" yields biceps
    and triceps; "upper body" yields chest, shoulders, biceps, triceps and
    back; "lower body" yields quadriceps, hamstrings, glutes and calves;
    "full body" or "total body" yields chest, quadriceps, back, shoulders
    and abs. *)
Theorem parsed_muscles_aliases (query : string) (d : option string)
    (eqp : option (list string)) :
  let ql := PyStr.lower query in
  let ms := muscles (parse_user_query query d eqp) in
  (Substring "arms" ql → ∀ m, m ∈ ["biceps"; "triceps"] → m ∈ ms)
  ∧ (Substring "upper body" ql →
     ∀ m, m ∈ ["chest"; "shoulders"; "biceps"; "triceps"; "back"] → m ∈ ms)
  ∧ (Substring "lower body" ql →
     ∀ m, m ∈ ["quadriceps"; "hamstrings"; "glutes"; "calves"] → m ∈ ms)
  ∧ (Substring "full body" ql ∨ Substring "total body" ql →
     ∀ m, m ∈ ["chest"; "quadriceps"; "back"; "shoulders"; "abs"] → m ∈ ms).
Proof.
  intros ql ms. subst ms. simpl.
  split_and!; intros H m Hm; apply elem_of_list_to_set, elem_of_extract_muscles.
  - by right; left.
  - by right; right; left.
  - by right; right; right; left.
  - by right; right; right; right.
Qed.

(** a non-empty explicit equipment list is the parsed equipment; the
    query is not scanned for equipment. *)
Lemma explicit_equipment_verbatim (query : string) (d : option string)
    (eqp : list string) :
  eqp ≠ [] →
  equipment (parse_user_query query d (Some eqp)) = list_to_set eqp.
Proof. intros H. destruct eqp; [done | reflexivity]. Qed.

Lemma explicit_equipment_verbatim_witness :
  equipment (parse_user_query "chest day with a barbell" None (Some ["Kettlebell"]))
  = {["Kettlebell"]}.
Proof.
  rewrite (explicit_equipment_verbatim "chest day with a barbell" None ["Kettlebell"])
    by discriminate.
  vm_compute. reflexivity.
Defined.

Lemma elem_of_cond_absent_app (c : bool) (y : string) (l : list string) (x : string) :
  x ∈ (if c && negb (PyStr.mem y l) then l ++ [y] else l) ↔ x ∈ l ∨ (c = true ∧ x = y).
Proof.
  destruct c; simpl; [|intuition congruence].
  destruct (PyStr.mem y l) eqn:Hm; simpl.
  - apply mem_spec in Hm. intuition congruence.
  - rewrite elem_of_app, list_elem_of_singleton. intuition congruence.
Qed.

Lemma elem_of_scanned_equipment ql x :
  x ∈ resolve_equipment ql None ↔
    (x ∈ EQUIPMENT_TYPES ∧ Substring x ql)
    ∨ (x = "body weight"
       ∧ (Substring "bodyweight" ql ∨ Substring "no equipment" ql ∨ Substring "home" ql)).
Proof.
  unfold resolve_equipment. cbv zeta.
  rewrite !elem_of_cond_absent_app, elem_of_cond_app, elem_of_List_filter.
  rewrite !orb_true_iff, list_elem_of_singleton, !contains_spec.
  assert (Hd : Substring "dumbbell" "dumbbells")
    by (by exists EmptyString, "s").
  assert (Hb : Substring "band" "resistance band")
    by (by exists "resistance ", EmptyString).
  split; [|tauto].
  intros [[[H | H] | [H ->]] | [H ->]]; [tauto | tauto | left | left].
  - split; [by apply (bool_decide_unpack ("dumbbell" ∈ EQUIPMENT_TYPES))|].
    by eapply Substring_trans.
  - split; [by apply (bool_decide_unpack ("band" ∈ EQUIPMENT_TYPES))|].
    by eapply Substring_trans.
Qed.

(** X9: whatever the case map [lower] is, without an explicit equipment
    list (or with an empty one) the parsed equipment is: the vocabulary
    words that occur in the lowered query, and "body weight" when
    "bodyweight", "no equipment" or "home" occurs.  The "dumbbells" and
    "resistance band" rules add nothing of their own, as each contains the
    vocabulary word it stands for. *)
Theorem scanned_equipment_spec (lower : string → string) (query : string)
    (d : option string) (eqp : option (list string)) (x : string) :
  eqp = None ∨ eqp = Some [] →
  let ql := lower query in
  x ∈ equipment (parse_user_query_with lower query d eqp) ↔
    (x ∈ EQUIPMENT_TYPES ∧ Substring x ql)
    ∨ (x = "body weight"
       ∧ (Substring "bodyweight" ql ∨ Substring "no equipment" ql ∨ Substring "home" ql)).
Proof.
  intros He ql.
  assert (Hr : resolve_equipment ql eqp = resolve_equipment ql None)
    by (by destruct He as [-> | ->]).
  simpl. fold ql. rewrite Hr, elem_of_list_to_set. apply elem_of_scanned_equipment.
Qed.

Lemma scanned_equipment_spec_witness :
  "body weight" ∈ equipment (parse_user_query "Quick HOME workout" None (Some [])).
Proof.
  apply (scanned_equipment_spec PyStr.lower "Quick HOME workout" None (Some [])
           "body weight").
  - by right.
  - right. split; [reflexivity|]. right; right.
    apply contains_spec. vm_compute. reflexivity.
Defined.

(** ** The request *)

Lemma Substring_lower a b : Substring a b → Substring (PyStr.lower a) (PyStr.lower b).
Proof.
  intros (x & y & ->). exists (PyStr.lower x), (PyStr.lower y). by rewrite !lower_app.
Qed.

Lemma extract_muscles_mono a b m :
  (∀ w, Substring w a → Substring w b) →
  m ∈ extract_muscles a → m ∈ extract_muscles b.
Proof. intros H. rewrite !elem_of_extract_muscles. intuition auto. Qed.

Lemma append_empty_r s : s +:+ EmptyString = s.
Proof. induction s as [|c s IH]; [done|]. by rewrite append_cons, IH. Qed.

(** The text the request's filters add to the query comes after it. *)
Lemma enhanced_query_prefix request :
  ∃ suffix, enhanced_query request = Request.query request +:+ suffix.
Proof.
  unfold enhanced_query. cbv zeta.
  destruct (negb _), (truthy_list _); eexists; rewrite ?append_assoc;
    [reflexivity.. | symmetry; apply append_empty_r].
Qed.

Lemma join_Substring sep x l : x ∈ l → Substring x (PyStr.join sep l).
Proof.
  induction l as [|y l IH]; intros Hx; [by apply elem_of_nil in Hx|].
  apply elem_of_cons in Hx.
  destruct l as [|z l].
  - destruct Hx as [-> | Hx]; [apply Substring_refl | by apply elem_of_nil in Hx].
  - change (PyStr.join sep (y :: z :: l)) with (y +:+ sep +:+ PyStr.join sep (z :: l)).
    destruct Hx as [-> | Hx].
    + apply Substring_app_l, Substring_refl.
    + by apply Substring_app_r, Substring_app_r, IH.
Qed.

(** X10: appending the explicit filters to the query loses no muscle: every
    muscle parsed from the bare query is parsed from the request. *)
Theorem request_keeps_query_muscles (request : Request.t) (m : string) :
  m ∈ muscles (parse_user_query (Request.query request) None None) →
  m ∈ muscles (request_params request).
Proof.
  unfold request_params. simpl. rewrite !elem_of_list_to_set.
  destruct (enhanced_query_prefix request) as [suffix ->].
  apply extract_muscles_mono. intros w Hw. rewrite lower_app. by apply Substring_app_l.
Qed.

Lemma request_keeps_query_muscles_witness :
  "chest" ∈ muscles (request_params
                       (Request.mk "Chest day" (Some "beginner") (Some ["barbell"]))).
Proof.
  apply (request_keeps_query_muscles
           (Request.mk "Chest day" (Some "beginner") (Some ["barbell"])) "chest").
  vm_compute. reflexivity.
Defined.

Lemma muscle_not_empty m : m ∈ ALL_MUSCLES → m ≠ EmptyString.
Proof.
  intros Hm ->.
  by apply (bool_decide_unpack (EmptyString ∉ ALL_MUSCLES)) in Hm.
Qed.

Lemma Substring_empty_inv w : Substring w EmptyString → w = EmptyString.
Proof. intros ([|c a] & b & H); [|discriminate]. by destruct w. Qed.

Lemma enhanced_query_difficulty request d :
  Request.difficulty request = Some d → Substring d (enhanced_query request).
Proof.
  intros Hd. unfold enhanced_query. cbv zeta. rewrite Hd. simpl.
  destruct d as [|c d]; simpl.
  - exists EmptyString. eexists. by rewrite !append_empty.
  - destruct (truthy_list _).
    + rewrite !append_assoc. apply Substring_app_r, Substring_app_r.
      apply Substring_app_l, Substring_refl.
    + apply Substring_app_r, Substring_app_r, Substring_refl.
Qed.

Lemma enhanced_query_equipment request l e :
  Request.equipment request = Some l → e ∈ l → Substring e (enhanced_query request).
Proof.
  intros Hl He. unfold enhanced_query. cbv zeta. rewrite Hl.
  destruct l as [|x l]; [by apply elem_of_nil in He|].
  cbn [truthy_list from_option id].
  apply Substring_app_r, Substring_app_r. by apply join_Substring.
Qed.

(** X11: the explicit filters are appended to the query before it is parsed, so
    a muscle word inside the explicit difficulty, or inside an explicit
    equipment name, is parsed as a muscle of the request. *)
Theorem request_filter_text_is_scanned (request : Request.t) (m : string) :
  m ∈ ALL_MUSCLES →
  (∀ d, Request.difficulty request = Some d → Substring m (PyStr.lower d) →
        m ∈ muscles (request_params request))
  ∧ (∀ l e, Request.equipment request = Some l → e ∈ l → Substring m (PyStr.lower e) →
            m ∈ muscles (request_params request)).
Proof.
  intros Hm.
  assert (Hin : ∀ w, Substring w (enhanced_query request) → Substring m (PyStr.lower w) →
                     m ∈ muscles (request_params request)).
  { intros w Hw Hmw. unfold request_params. simpl.
    apply elem_of_list_to_set, elem_of_extract_muscles. left. split; [done|].
    eapply Substring_trans; [done | by apply Substring_lower]. }
  split.
  - intros d Hd. apply Hin. by apply enhanced_query_difficulty.
  - intros l e Hl He. apply Hin. by eapply enhanced_query_equipment.
Qed.

Lemma request_filter_text_is_scanned_witness :
  "core" ∈ muscles (request_params (Request.mk "Quick workout" (Some "Hardcore") None)).
Proof.
  destruct (request_filter_text_is_scanned
              (Request.mk "Quick workout" (Some "Hardcore") None) "core") as [Hd _].
  - apply (bool_decide_unpack ("core" ∈ ALL_MUSCLES)). vm_compute. exact I.
  - apply (Hd "Hardcore"); [reflexivity|].
    apply contains_spec. vm_compute. reflexivity.
Defined.

(** ** The catalog cache *)

(** once the cache is filled, a later call returns the stored list and
    does not look at the new response. *)
Lemma fetch_exercises_cached (cache : option (list ExerciseRecord))
    (first later : ApiResponse) :
  fetch_exercises (fetch_exercises cache first).2 later = fetch_exercises cache first.
Proof. by destruct cache. Qed.

Lemma enrich_url_settled cdn url :
  PyStr.startswith "http" cdn = true → url_settled (enrich_url cdn url).
Proof.
  intros Hcdn. destruct url as [u|]; [|done]. rewrite enrich_url_spec.
  destruct (PyStr.truthy u) eqn:Ht, (PyStr.startswith "http" u) eqn:Hs;
    cbn [andb negb url_settled]; try (by right); try (by destruct u; [left|]).
  right. apply startswith_spec in Hcdn as [b ->].
  apply startswith_spec. eexists. by rewrite !append_assoc.
Qed.

Lemma enrich_url_fixed cdn url : url_settled url → enrich_url cdn url = url.
Proof.
  destruct url as [u|]; [|done]. intros [-> | H]; [done|].
  unfold enrich_url. rewrite H. by destruct (PyStr.truthy u).
Qed.

(** X12: after a fetch that fills the cache, every image or video URL is
    absent, empty, or starts with "http". *)
Theorem fetch_exercises_urls_settled (data : ApiResponse) (ex : ExerciseRecord) :
  ex ∈ (fetch_exercises None data).1 →
  url_settled (imageUrl ex) ∧ url_settled (videoUrl ex).
Proof.
  simpl. intros Hex. apply list_elem_of_fmap in Hex as [ex0 [-> _]].
  split; by apply enrich_url_settled.
Qed.

Lemma fetch_exercises_urls_settled_witness :
  url_settled (imageUrl (enrich (mkExercise (Some "0001") None None None None None None
                                   (Some "0001.png") (Some "https://cdn.example.org/1.mp4")))).
Proof.
  apply (fetch_exercises_urls_settled
           (RespArray [mkExercise (Some "0001") None None None None None None
                         (Some "0001.png") (Some "https://cdn.example.org/1.mp4")])).
  vm_compute. left.
Defined.

(** X13: enriching an enriched record changes nothing. *)
Theorem enrich_idempotent (ex : ExerciseRecord) : enrich (enrich ex) = enrich ex.
Proof.
  unfold enrich. simpl. f_equal; by apply enrich_url_fixed, enrich_url_settled.
Qed.

(** ** Lookup by id *)

Lemma get_exercise_cons ex rest i :
  get_exercise (ex :: rest) i
  = if bool_decide (exerciseId ex = Some i) then Some ex else get_exercise rest i.
Proof. reflexivity. Qed.

Lemma get_exercise_Some l i ex :
  get_exercise l i = Some ex ↔
    ∃ pre post, l = pre ++ ex :: post ∧ exerciseId ex = Some i
                ∧ ∀ e, e ∈ pre → exerciseId e ≠ Some i.
Proof.
  induction l as [|x l IH].
  - split; [done|]. intros (pre & post & H & _). by destruct pre.
  - rewrite get_exercise_cons. case_bool_decide as Hx.
    + split.
      * intros [= <-]. exists [], l. split_and!; [done..|]. by intros e ?%elem_of_nil.
      * intros ([|y pre] & post & Hl & Hid & Hpre); simplify_eq/=; [done|].
        destruct (Hpre y); [by left | done].
    + rewrite IH. split.
      * intros (pre & post & -> & Hid & Hpre). exists (x :: pre), post.
        split_and!; [done..|]. intros e [-> | He]%elem_of_cons; auto.
      * intros ([|y pre] & post & Hl & Hid & Hpre); simplify_eq/=.
        exists pre, post. split_and!; [done..|]. intros e He. apply Hpre. by right.
Qed.

Lemma get_exercise_None l i :
  get_exercise l i = None ↔ ∀ ex, ex ∈ l → exerciseId ex ≠ Some i.
Proof.
  induction l as [|x l IH].
  - split; [by intros _ ex ?%elem_of_nil | done].
  - rewrite get_exercise_cons. case_bool_decide as Hx.
    + split; [done|]. intros H. destruct (H x); [by left | done].
    + rewrite IH. split.
      * intros H ex [-> | He]%elem_of_cons; auto.
      * intros H ex He. apply H. by right.
Qed.

(** X14: [get_exercise] returns the first record of the catalog with the id,
    and fails exactly when no record has it. *)
Theorem get_exercise_first_match (exercises : list ExerciseRecord) (exercise_id : string) :
  (∀ ex, get_exercise exercises exercise_id = Some ex ↔
     ∃ pre post, exercises = pre ++ ex :: post ∧ exerciseId ex = Some exercise_id
                 ∧ ∀ e, e ∈ pre → exerciseId e ≠ Some exercise_id)
  ∧ (get_exercise exercises exercise_id = None ↔
     ∀ ex, ex ∈ exercises → exerciseId ex ≠ Some exercise_id).
Proof. split; [intros ex; apply get_exercise_Some | apply get_exercise_None]. Qed.

Lemma index_records_snoc m l x :
  index_records m (l ++ [x]) = <[exerciseId x := x]> (index_records m l).
Proof. unfold index_records. by rewrite foldl_app. Qed.

Lemma exercise_map_reverse all i :
  exercise_map all !! Some i = get_exercise (reverse all) i.
Proof.
  unfold exercise_map. induction all as [|x all IH] using rev_ind; [done|].
  rewrite index_records_snoc, reverse_app, reverse_singleton.
  change ([x] ++ reverse all) with (x :: reverse all). rewrite get_exercise_cons.
  case_bool_decide as Hx.
  - by rewrite Hx, lookup_insert_eq.
  - by rewrite lookup_insert_ne.
Qed.

(** X15: the index used for reconciliation holds, for an id, the last record of
    the catalog with that id: it is [get_exercise] on the reversed
    catalog. *)
Theorem exercise_map_last_match (all_exercises : list ExerciseRecord) (exercise_id : string) :
  exercise_map all_exercises !! Some exercise_id
  = get_exercise (reverse all_exercises) exercise_id.
Proof. apply exercise_map_reverse. Qed.

Lemma NoDup_map_inj {A B} (f : A → B) (l : list A) (x y : A) :
  NoDup (map f l) → x ∈ l → y ∈ l → f x = f y → x = y.
Proof.
  induction l as [|a l IH]; simpl; [by intros _ ?%elem_of_nil|].
  intros [Ha Hnd]%NoDup_cons [-> | Hx]%elem_of_cons [-> | Hy]%elem_of_cons Hf.
  - done.
  - destruct Ha. rewrite Hf. by apply (list_elem_of_fmap_2 f).
  - destruct Ha. rewrite <- Hf. by apply (list_elem_of_fmap_2 f).
  - by apply IH.
Qed.

(** X16: when the catalog's ids are distinct, the index and [get_exercise]
    return the same record for every id. *)
Theorem exercise_map_get_exercise (all_exercises : list ExerciseRecord) (exercise_id : string) :
  NoDup (map exerciseId all_exercises) →
  exercise_map all_exercises !! Some exercise_id = get_exercise all_exercises exercise_id.
Proof.
  intros Hnd.
  destruct (get_exercise all_exercises exercise_id) as [ex|] eqn:Hg.
  - apply get_exercise_Some in Hg as (pre & post & Hl & Hid & _).
    assert (Hin : ex ∈ all_exercises).
    { rewrite Hl. apply elem_of_app. right. by left. }
    destruct (exercise_map_lookup_is_Some all_exercises (Some exercise_id)) as [rec Hrec].
    { by exists ex. }
    rewrite Hrec. f_equal.
    apply exercise_map_lookup_Some in Hrec as [Hrin Hrid].
    apply (NoDup_map_inj exerciseId all_exercises); [done..|]. congruence.
  - apply exercise_map_lookup_None. by apply get_exercise_None.
Qed.

Lemma exercise_map_get_exercise_witness :
  exercise_map sample_catalog !! Some "0003" = get_exercise sample_catalog "0003".
Proof.
  apply (exercise_map_get_exercise sample_catalog "0003").
  apply (bool_decide_unpack (NoDup (map exerciseId sample_catalog))).
  vm_compute. exact I.
Defined.

(** ** More on reconciliation *)

Lemma reconcile_item_survives all item :
  is_Some (reconcile_item (exercise_map all) item) ↔ id_survives all (PlanItem.id item) = true.
Proof.
  unfold reconcile_item, id_survives.
  destruct (PlanItem.id item) as [ex_id|]; [|by split; [intros [? ?] | ]].
  destruct (PyStr.truthy ex_id); cbn [andb]; [|by split; [intros [? ?] | ]].
  rewrite bool_decide_eq_true. split.
  - intros [e He]. destruct (exercise_map all !! Some ex_id) as [rec|] eqn:Hl; [|done].
    apply exercise_map_lookup_Some in Hl as [Hin <-]. by apply list_elem_of_fmap_2.
  - intros Hin. apply list_elem_of_fmap in Hin as [rec [Hid Hin]].
    destruct (exercise_map_lookup_is_Some all (Some ex_id)) as [r ->]; [|done].
    by exists rec.
Qed.

Lemma omap_ids all items :
  Reconciled.id <$> omap (reconcile_item (exercise_map all)) items
  = List.filter (id_survives all) (PlanItem.id <$> items).
Proof.
  induction items as [|item items IH]; [done|].
  rewrite omap_cons, fmap_cons. cbn [List.filter].
  pose proof (reconcile_item_survives all item) as Hs.
  destruct (reconcile_item (exercise_map all) item) as [e|] eqn:He.
  - rewrite (proj1 Hs) by done. rewrite fmap_cons, IH.
    by rewrite (reconcile_item_id _ _ _ He).
  - destruct (id_survives all (PlanItem.id item)); [|done].
    by destruct (proj2 Hs eq_refl).
Qed.

(** X17: the ids of the reconciled entries are the plan's ids, in the plan's
    order and with repetitions, without the absent ones, the empty ones
    and those no catalog record has. *)
Theorem reconcile_ids (plan : WorkoutPlan) (all_exercises : list ExerciseRecord) :
  Reconciled.id <$> reconcile plan all_exercises
  = List.filter (id_survives all_exercises) (PlanItem.id <$> default [] (exercises plan)).
Proof. rewrite reconcile_omap. apply omap_ids. Qed.

(** X18: every reconciled entry carries a record of the catalog unchanged, has
    that record's id, which is not empty, and the fixed level
    "intermediate"; its muscles and equipment text come from the record. *)
Theorem reconcile_entries (plan : WorkoutPlan) (all_exercises : list ExerciseRecord)
    (e : Reconciled.t) :
  e ∈ reconcile plan all_exercises →
  Reconciled.base e ∈ all_exercises
  ∧ Reconciled.id e = exerciseId (Reconciled.base e)
  ∧ (∃ ex_id, Reconciled.id e = Some ex_id ∧ ex_id ≠ EmptyString)
  ∧ Reconciled.level e = "intermediate"
  ∧ Reconciled.primaryMuscles e = get_list (targetMuscles (Reconciled.base e))
  ∧ Reconciled.equipment e = PyStr.join ", " (get_list (equipments (Reconciled.base e))).
Proof.
  rewrite reconcile_omap. intros He.
  apply list_elem_of_omap in He as (item & _ & He).
  apply reconcile_item_Some in He as (ex_id & rec & _ & Hne & Hin & Hk & ->).
  simpl. split_and!; try done. by exists ex_id.
Qed.

Lemma reconcile_entries_witness :
  Reconciled.base (merge_entry (sample_record "0001" ["Chest"] ["Barbell"])
                     (PlanItem.mk (Some "0001") None None None None))
  ∈ sample_catalog.
Proof.
  apply (reconcile_entries sample_plan sample_catalog).
  apply list_elem_of_In. vm_compute. tauto.
Defined.

(** ** URL quoting *)

Lemma quote_cons c r :
  Quote.quote (String c r) =
    if Quote.is_safe c then String c (Quote.quote r)
    else String "%" (String (Quote.hex_digit (nat_of_ascii c / 16))
                       (String (Quote.hex_digit (nat_of_ascii c mod 16)) (Quote.quote r))).
Proof. reflexivity. Qed.

Lemma hex_digit_code k :
  (k < 16)%nat →
  nat_of_ascii (Quote.hex_digit k) = if (k <? 10)%nat then (48 + k)%nat else (55 + k)%nat.
Proof.
  intros Hk. unfold Quote.hex_digit.
  destruct (k <? 10)%nat; apply nat_ascii_embedding; lia.
Qed.

Lemma hex_digit_safe k : (k < 16)%nat → Quote.is_safe (Quote.hex_digit k) = true.
Proof.
  intros Hk. do 16 (destruct k as [|k]; [reflexivity|]). lia.
Qed.

Lemma hex_digit_inj a b :
  (a < 16)%nat → (b < 16)%nat → Quote.hex_digit a = Quote.hex_digit b → a = b.
Proof.
  intros Ha Hb H. apply (f_equal nat_of_ascii) in H.
  rewrite !hex_digit_code in H by done.
  destruct (Nat.ltb_spec a 10), (Nat.ltb_spec b 10); lia.
Qed.

Lemma nat_of_ascii_bound c : (nat_of_ascii c < 256)%nat.
Proof. apply nat_ascii_bounded. Qed.

Lemma percent_not_safe : Quote.is_safe "%" = false.
Proof. reflexivity. Qed.

(** A quoted text consists of characters of the safe set and of "%". *)
Lemma quote_is_url_safe (s : string) :
  Forall (fun c => Quote.is_safe c = true ∨ c = "%"%char)
         (list_ascii_of_string (Quote.quote s)).
Proof.
  induction s as [|c r IH]; [constructor|].
  rewrite quote_cons. pose proof (nat_of_ascii_bound c) as Hc.
  destruct (Quote.is_safe c) eqn:Hs; cbn [list_ascii_of_string].
  - constructor; [by left | done].
  - constructor; [by right|].
    constructor; [left; apply hex_digit_safe, Nat.Div0.div_lt_upper_bound; lia|].
    constructor; [left; apply hex_digit_safe, Nat.mod_upper_bound; lia | done].
Qed.

(** Quoting loses nothing: two texts with the same quoted form are the
    same text. *)
Lemma quote_injective (s1 s2 : string) :
  Quote.quote s1 = Quote.quote s2 → s1 = s2.
Proof.
  revert s2. induction s1 as [|c1 r1 IH]; intros [|c2 r2].
  - done.
  - rewrite quote_cons. by destruct (Quote.is_safe c2).
  - rewrite quote_cons. by destruct (Quote.is_safe c1).
  - rewrite !quote_cons.
    destruct (Quote.is_safe c1) eqn:H1, (Quote.is_safe c2) eqn:H2; intros H.
    + injection H as -> Hr. f_equal. by apply IH.
    + injection H as -> _. by rewrite percent_not_safe in H1.
    + injection H as <- _. by rewrite percent_not_safe in H2.
    + pose proof (nat_of_ascii_bound c1) as Hb1.
      pose proof (nat_of_ascii_bound c2) as Hb2.
      pose proof (Nat.div_mod_eq (nat_of_ascii c1) 16) as Hd1.
      pose proof (Nat.div_mod_eq (nat_of_ascii c2) 16) as Hd2.
      assert (Hq1 : (nat_of_ascii c1 / 16 < 16)%nat)
        by (apply Nat.Div0.div_lt_upper_bound; lia).
      assert (Hq2 : (nat_of_ascii c2 / 16 < 16)%nat)
        by (apply Nat.Div0.div_lt_upper_bound; lia).
      assert (Hm1 : (nat_of_ascii c1 mod 16 < 16)%nat) by (apply Nat.mod_upper_bound; lia).
      assert (Hm2 : (nat_of_ascii c2 mod 16 < 16)%nat) by (apply Nat.mod_upper_bound; lia).
      revert H Hd1 Hd2 Hq1 Hq2 Hm1 Hm2.
      generalize (nat_of_ascii c1 / 16)%nat (nat_of_ascii c1 mod 16)%nat
                 (nat_of_ascii c2 / 16)%nat (nat_of_ascii c2 mod 16)%nat.
      intros q1 m1 q2 m2 H Hd1 Hd2 Hq1 Hq2 Hm1 Hm2.
      injection H as Hhi Hlo Hr.
      apply hex_digit_inj in Hhi; [|done..].
      apply hex_digit_inj in Hlo; [|done..].
      assert (Hn : nat_of_ascii c1 = nat_of_ascii c2) by lia.
      f_equal; [|by apply IH].
      by rewrite <- (ascii_nat_embedding c1), <- (ascii_nat_embedding c2), Hn.
Qed.

(** ** The search URL *)

Lemma str_length_app a b :
  String.length (a +:+ b) = (String.length a + String.length b)%nat.
Proof. induction a as [|c a IH]; [done|]. rewrite append_cons. simpl. by rewrite IH. Qed.

Lemma append_inv_tail a b s : a +:+ s = b +:+ s → a = b.
Proof.
  revert b. induction a as [|c a IH]; intros [|d b] H.
  - done.
  - apply (f_equal String.length) in H. rewrite !str_length_app in H. simpl in H. lia.
  - apply (f_equal String.length) in H. rewrite !str_length_app in H. simpl in H. lia.
  - rewrite !append_cons in H. injection H as -> H. f_equal. by apply IH.
Qed.

(** X19: the search URL of an entry is the fixed address followed by a query
    made of URL-safe characters and "%" only. *)
Theorem youtube_url_is_safe (rec : ExerciseRecord) (plan_ex : PlanItem.t) :
  ∃ q, Reconciled.youtubeSearchUrl (merge_entry rec plan_ex)
       = "https://www.youtube.com/results?search_query=" +:+ q
       ∧ Forall (fun c => Quote.is_safe c = true ∨ c = "%"%char) (list_ascii_of_string q).
Proof. eexists. split; [reflexivity | apply quote_is_url_safe]. Qed.

(** X20: two entries with the same search URL come from records with the same
    name, an absent name counting as "exercise". *)
Theorem youtube_url_tells_names (rec1 rec2 : ExerciseRecord) (item1 item2 : PlanItem.t) :
  Reconciled.youtubeSearchUrl (merge_entry rec1 item1)
  = Reconciled.youtubeSearchUrl (merge_entry rec2 item2) →
  default "exercise" (name rec1) = default "exercise" (name rec2).
Proof.
  cbn [merge_entry Reconciled.youtubeSearchUrl]. intros H.
  apply (inj _), quote_injective in H. by apply append_inv_tail in H.
Qed.

Lemma youtube_url_tells_names_witness :
  default "exercise" (name (sample_record "0001" ["Chest"] ["Barbell"]))
  = default "exercise" (name (sample_record "0001" ["Back"] ["Cable"])).
Proof.
  apply (youtube_url_tells_names _ _ (PlanItem.mk (Some "0001") None None None None)
           (PlanItem.mk None (Some 5%Z) None None None)).
  vm_compute. reflexivity.
Defined.

(** ** The fence search, as a whole *)

Lemma drop_prefix_spec p s r : Fence.drop_prefix p s = Some r ↔ s = p +:+ r.
Proof.
  revert s. induction p as [|a p IH]; intros s.
  - rewrite append_empty. simpl. split; congruence.
  - destruct s as [|b s]; [by split|]. rewrite append_cons.
    change (Fence.drop_prefix (String a p) (String b s))
      with (if Ascii.eqb a b then Fence.drop_prefix p s else None).
    destruct (Ascii.eqb_spec a b) as [->|Hne].
    + rewrite IH. split; congruence.
    + split; [done | congruence].
Qed.

Lemma drop_prefix_None p s : Fence.drop_prefix p s = None ↔ PyStr.startswith p s = false.
Proof.
  revert s. induction p as [|a p IH]; intros s; [by split|].
  destruct s as [|b s]; [by split|]. rewrite startswith_cons.
  change (Fence.drop_prefix (String a p) (String b s))
    with (if Ascii.eqb a b then Fence.drop_prefix p s else None).
  destruct (Ascii.eqb a b); [apply IH | by split].
Qed.

Lemma contains_cons w c s :
  PyStr.contains w (String c s) = PyStr.startswith w (String c s) || PyStr.contains w s.
Proof. reflexivity. Qed.


Lemma contains_app_l w a b : PyStr.contains w a = true → PyStr.contains w (a +:+ b) = true.
Proof. rewrite !contains_spec. apply Substring_app_l. Qed.


Lemma lazy_group_None s : Fence.lazy_group s = None ↔ PyStr.contains Fence.fence s = false.
Proof.
  induction s as [|c r IH]; [by split|].
  rewrite lazy_group_unfold, contains_cons.
  destruct (PyStr.startswith Fence.fence (String c r)); [by split|].
  rewrite orb_false_l, <- IH. by destruct (Fence.lazy_group r).
Qed.


Lemma lstrip_fixed_cons c s : PyStr.is_space c = false → PyStr.lstrip (String c s) = String c s.
Proof. intros H. by rewrite lstrip_cons, H. Qed.

(** Greedy white space and the lazy group together: the group loses its
    leading white space, and giving white space back never helps. *)
Lemma spaces_then_group_eq s :
  Fence.spaces_then_group s = PyStr.lstrip <$> Fence.lazy_group s.
Proof.
  induction s as [|c r IH]; [done|].
  rewrite spaces_then_group_cons. destruct (PyStr.is_space c) eqn:Hc.
  - rewrite IH, (lazy_group_unfold (String c r)), startswith_fence_space by done.
    destruct (Fence.lazy_group r) as [g|]; [|done].
    cbn [fmap option_fmap option_map]. by rewrite lstrip_cons, Hc.
  - rewrite lazy_group_unfold.
    destruct (PyStr.startswith Fence.fence (String c r)); [done|].
    destruct (Fence.lazy_group r) as [g|]; [|done].
    cbn [fmap option_fmap option_map]. by rewrite lstrip_fixed_cons.
Qed.

Lemma contains_fence_json r :
  PyStr.contains Fence.fence ("json" +:+ r) = PyStr.contains Fence.fence r.
Proof. reflexivity. Qed.

(** The optional tag: it is taken when it is there, and giving it back
    never helps. *)
Lemma tag_then_rest_eq s :
  Fence.tag_then_rest s =
    PyStr.lstrip <$> Fence.lazy_group (default s (Fence.drop_prefix "json" s)).
Proof.
  unfold Fence.tag_then_rest.
  destruct (Fence.drop_prefix "json" s) as [r|] eqn:Hd; cbn [from_option id];
    [|apply spaces_then_group_eq].
  rewrite !spaces_then_group_eq. apply drop_prefix_spec in Hd as ->.
  destruct (Fence.lazy_group r) as [g|] eqn:Hg; [done|].
  cbn [fmap option_fmap option_map].
  apply lazy_group_None in Hg. rewrite <- contains_fence_json in Hg.
  by apply lazy_group_None in Hg as ->.
Qed.

Lemma tag_then_rest_None r :
  Fence.tag_then_rest r = None ↔ PyStr.contains Fence.fence r = false.
Proof.
  rewrite tag_then_rest_eq.
  destruct (Fence.drop_prefix "json" r) as [r'|] eqn:Hd; cbn [from_option id].
  - apply drop_prefix_spec in Hd as ->. rewrite contains_fence_json, <- lazy_group_None.
    by destruct (Fence.lazy_group r').
  - rewrite <- lazy_group_None. by destruct (Fence.lazy_group r).
Qed.

Lemma match_here_Some s g :
  Fence.match_here s = Some g ↔ ∃ r, s = Fence.fence +:+ r ∧ Fence.tag_then_rest r = Some g.
Proof.
  unfold Fence.match_here. destruct (Fence.drop_prefix Fence.fence s) as [r|] eqn:Hd.
  - apply drop_prefix_spec in Hd as ->. split; [by exists r|].
    by intros [r' [->%(inj _) H]].
  - split; [done|]. intros [r [-> _]].
    apply drop_prefix_None in Hd. by rewrite (proj2 (startswith_spec _ _)) in Hd by eauto.
Qed.

Lemma search_unfold s :
  Fence.search s =
    match Fence.match_here s with
    | Some g => Some g
    | None => match s with
              | EmptyString => None
              | String _ r => Fence.search r
              end
    end.
Proof. by destruct s. Qed.

(** A fence with another fence somewhere after it. *)
Lemma search_is_Some s :
  is_Some (Fence.search s) ↔
    ∃ a r, s = a +:+ Fence.fence +:+ r ∧ PyStr.contains Fence.fence r = true.
Proof.
  induction s as [|ch s IH]; rewrite search_unfold.
  - split; [by intros [? ?] | by intros ([|? ?] & r & H & _)].
  - destruct (Fence.match_here (String ch s)) as [g|] eqn:Hm.
    + split; [intros _ | by eexists].
      apply match_here_Some in Hm as (r & -> & Ht). exists EmptyString, r.
      split; [done|]. apply not_false_iff_true. rewrite <- tag_then_rest_None. congruence.
    + rewrite IH. split.
      * intros (a & r & -> & Hr). exists (String ch a), r. by rewrite append_cons.
      * intros ([|ch' a] & r & Hs & Hr).
        -- rewrite append_empty in Hs.
           assert (Ht : is_Some (Fence.tag_then_rest r)).
           { destruct (Fence.tag_then_rest r) eqn:Ht; [by eexists|].
             apply tag_then_rest_None in Ht. congruence. }
           destruct Ht as [g Ht].
           assert (Fence.match_here (String ch s) = Some g); [|congruence].
           apply match_here_Some. by exists r.
        -- rewrite append_cons in Hs. injection Hs as -> ->. by exists a, r.
Qed.

Lemma TwoFences_alt s :
  TwoFences s ↔ ∃ a r, s = a +:+ Fence.fence +:+ r ∧ PyStr.contains Fence.fence r = true.
Proof.
  unfold TwoFences. split.
  - intros (a & b & c & ->). exists a, (b +:+ Fence.fence +:+ c). split; [done|].
    apply contains_spec. by exists b, c.
  - intros (a & r & -> & (b & c & ->)%contains_spec). by exists a, b, c.
Qed.

(** X21: the search finds a block exactly when the text holds two fences that
    do not overlap; without them the text goes to the JSON parser as it
    is. *)
Theorem search_finds_two_fences (content : string) :
  (is_Some (Fence.search content) ↔ TwoFences content)
  ∧ (¬ TwoFences content → extract_json content = content).
Proof.
  split; [by rewrite search_is_Some, TwoFences_alt|].
  intros H. unfold extract_json.
  destruct (Fence.search content) as [g|] eqn:Hs; [|by destruct (PyStr.contains _ _)].
  destruct H. apply TwoFences_alt, search_is_Some. by eexists.
Qed.









(** ** The filter options *)

Lemma elem_of_add_all s xs x : x ∈ add_all s xs ↔ x ∈ s ∨ x ∈ xs.
Proof.
  unfold add_all. revert s. induction xs as [|y xs IH]; intros s; simpl.
  - rewrite elem_of_nil. tauto.
  - rewrite IH, elem_of_union, elem_of_singleton, elem_of_cons. tauto.
Qed.

Lemma fold_sets_spec (g : ExerciseRecord → list string) l s0 x :
  x ∈ foldl (fun s ex => add_all s (g ex)) s0 l ↔ x ∈ s0 ∨ ∃ ex, ex ∈ l ∧ x ∈ g ex.
Proof.
  revert s0. induction l as [|e l IH]; intros s0; cbn [foldl].
  - split; [by left | intros [? | (? & ?%elem_of_nil & _)]; done].
  - rewrite IH, elem_of_add_all. split.
    + intros [[? | ?] | (ex & ? & ?)]; [by left | right; exists e | right; exists ex].
      * split; [by left | done].
      * split; [by right | done].
    + intros [? | (ex & [-> | ?]%elem_of_cons & ?)];
        [by left; left | by left; right | right; by exists ex].
Qed.

Lemma add_all_app s a b : add_all (add_all s a) b = add_all s (a ++ b).
Proof. unfold add_all. by rewrite foldl_app. Qed.

Lemma filters_fold_proj l acc :
  foldl filters_step acc l
  = (foldl (fun s ex => add_all s (get_list (equipments ex))) acc.1.1 l,
     foldl (fun s ex => add_all s (get_list (bodyParts ex))) acc.1.2 l,
     foldl (fun s ex => add_all s (get_list (targetMuscles ex)
                                   ++ get_list (secondaryMuscles ex))) acc.2 l).
Proof.
  revert acc. induction l as [|e l IH]; intros [[E B] M]; cbn [foldl]; [done|].
  rewrite IH. cbn [filters_step fst snd]. by rewrite add_all_app.
Qed.

Lemma elem_of_sorted s x : x ∈ sorted s ↔ x ∈ s.
Proof. unfold sorted. by rewrite merge_sort_Permutation, elem_of_elements. Qed.

Lemma sorted_increasing s : StronglySorted String.le (sorted s) ∧ NoDup (sorted s).
Proof.
  unfold sorted. split.
  - apply (StronglySorted_merge_sort _).
  - rewrite merge_sort_Permutation. apply NoDup_elements.
Qed.

(** X23: the filter options list exactly what the catalog has: an equipment,
    body part or muscle is listed when some record has it (a muscle as a
    target or as a secondary muscle). *)
Theorem get_filters_members (exercises : list ExerciseRecord) (x : string) :
  (x ∈ Filters.equipment (get_filters exercises) ↔
     ∃ ex, ex ∈ exercises ∧ x ∈ get_list (equipments ex))
  ∧ (x ∈ Filters.bodyParts (get_filters exercises) ↔
     ∃ ex, ex ∈ exercises ∧ x ∈ get_list (bodyParts ex))
  ∧ (x ∈ Filters.muscles (get_filters exercises) ↔
     ∃ ex, ex ∈ exercises ∧ (x ∈ get_list (targetMuscles ex)
                              ∨ x ∈ get_list (secondaryMuscles ex))).
Proof.
  unfold get_filters. rewrite filters_fold_proj. cbn [fst snd Filters.equipment
    Filters.bodyParts Filters.muscles].
  rewrite !elem_of_sorted, !fold_sets_spec. setoid_rewrite elem_of_app.
  split_and!; (split; [intros [?%not_elem_of_empty | ?]; done | by right]).
Qed.

(** X24: each list of filter options is in increasing order and holds no value
    twice. *)
Theorem get_filters_sorted (exercises : list ExerciseRecord) :
  let f := get_filters exercises in
  (StronglySorted String.le (Filters.equipment f) ∧ NoDup (Filters.equipment f))
  ∧ (StronglySorted String.le (Filters.bodyParts f) ∧ NoDup (Filters.bodyParts f))
  ∧ (StronglySorted String.le (Filters.muscles f) ∧ NoDup (Filters.muscles f)).
Proof.
  intros f. subst f. unfold get_filters. rewrite filters_fold_proj.
  cbn [Filters.equipment Filters.bodyParts Filters.muscles].
  split_and!; apply sorted_increasing.
Qed.

Example get_filters_sample :
  get_filters sample_catalog
  = {| Filters.equipment := ["Barbell"; "Body weight"; "Cable"; "Dumbbell"];
       Filters.bodyParts := ["Back"; "CHEST"; "Chest"; "Shoulders"; "Upper Legs"];
       Filters.muscles := [] |}.
Proof. vm_compute. reflexivity. Qed.
